(** * llvm-bolt-wrapper: a shallow embedding of [utils/llvm-bolt-wrapper.py]

    The script runs a base and a comparison build of BOLT on the same
    arguments, compares their logs, exit codes and output binaries and
    records timing.  The pure helpers ([compare_logs], [parse_cmp_offset],
    [prepend_dash], ...) are embedded as functions on strings; [main] is
    embedded in a small monad that records the observable effects (prints,
    file writes, spawned tools) and ends in a value, a [SystemExit] or an
    uncaught Python exception.

    Text is [string]: a sequence of characters with code points below 256.
    The external programs (the two BOLT builds, [cmp], [readelf]) and the
    result of [argparse] are inputs of the model. *)

From Stdlib Require Import String Ascii List ZArith NArith Bool Lia.
Import ListNotations.
Open Scope string_scope.
Open Scope Z_scope.

(** ** Python built-ins used by the script *)

Module Py.

Definition code (c : ascii) : N := N_of_ascii c.

Definition chr (n : N) : ascii := ascii_of_N n.

Definition LF : ascii := chr 10.
Definition CR : ascii := chr 13.

(** Characters at which [str.splitlines] breaks a line (besides the
    two-character sequence CR LF): LF, VT, FF, CR, FS, GS, RS, NEL. *)
Definition is_linebreak (c : ascii) : bool :=
  let n := code c in
  ((10 <=? n) && (n <=? 13) || (28 <=? n) && (n <=? 30) || (n =? 133))%N.

(** [str.isspace] on one character. *)
Definition is_space (c : ascii) : bool :=
  let n := code c in
  ((9 <=? n) && (n <=? 13) || (28 <=? n) && (n <=? 32)
   || (n =? 133) || (n =? 160))%N.

(** [\d] and the digits [int] reads. *)
Definition is_digit (c : ascii) : bool :=
  let n := code c in ((48 <=? n) && (n <=? 57))%N.

Definition snoc (s : string) (c : ascii) : string := s ++ String c "".

(** [s.splitlines()]: [cur] is the line being read. No empty last line is
    produced after a final line break. *)
Fixpoint splitlines_from (cur : string) (s : string) : list string :=
  match s with
  | "" => match cur with "" => [] | _ => [cur] end
  | String c s' =>
      if Ascii.eqb c CR then
        match s' with
        | String d s'' =>
            if Ascii.eqb d LF then cur :: splitlines_from "" s''
            else cur :: splitlines_from "" s'
        | "" => [cur]
        end
      else if is_linebreak c then cur :: splitlines_from "" s'
      else splitlines_from (snoc cur c) s'
  end.

Definition splitlines (s : string) : list string := splitlines_from "" s.

(** [s.split()]: the maximal runs of characters that are not white space. *)
Fixpoint split_from (cur : string) (s : string) : list string :=
  match s with
  | "" => match cur with "" => [] | _ => [cur] end
  | String c s' =>
      if is_space c then
        match cur with
        | "" => split_from "" s'
        | _ => cur :: split_from "" s'
        end
      else split_from (snoc cur c) s'
  end.

Definition split (s : string) : list string := split_from "" s.

(** [sep.join(l)]. *)
Fixpoint join (sep : string) (l : list string) : string :=
  match l with
  | [] => ""
  | [x] => x
  | x :: l' => x ++ sep ++ join sep l'
  end.

(** [l[:stop]]: a negative [stop] counts from the end, and the bound is
    clamped to the list. *)
Definition slice_to {A : Type} (l : list A) (stop : Z) : list A :=
  let n := Z.of_nat (List.length l) in
  let stop' := if stop <? 0 then Z.max 0 (n + stop) else Z.min stop n in
  firstn (Z.to_nat stop') l.

(** [l[-1]]: [None] stands for the [IndexError] of an empty list. *)
Definition last_item {A : Type} (l : list A) : option A :=
  match rev l with
  | [] => None
  | x :: _ => Some x
  end.

(** [l.index(x)]: [None] stands for [ValueError]. *)
Fixpoint index (x : string) (l : list string) : option nat :=
  match l with
  | [] => None
  | y :: l' => if String.eqb y x then Some O
               else option_map S (index x l')
  end.

(** [int(s)] on a string of decimal digits. *)
Definition digit_value (c : ascii) : Z := Z.of_N (code c) - 48.

Definition int_from (acc : Z) (s : string) : Z :=
  fold_left (fun a c => 10 * a + digit_value c) (list_ascii_of_string s) acc.

Definition int (s : string) : Z := int_from 0 s.

(** [os.path.basename] and [os.path.join] on POSIX paths. *)
Fixpoint basename_from (cur : string) (p : string) : string :=
  match p with
  | "" => cur
  | String c p' =>
      if Ascii.eqb c "/"%char then basename_from "" p'
      else basename_from (snoc cur c) p'
  end.

Definition basename (p : string) : string := basename_from "" p.

Definition startswith (pre s : string) : bool := String.prefix pre s.

Fixpoint endswith_slash (s : string) : bool :=
  match s with
  | "" => false
  | String c "" => Ascii.eqb c "/"%char
  | String _ s' => endswith_slash s'
  end.

Definition path_join (a b : string) : string :=
  if startswith "/" b then b
  else match a with
       | "" => b
       | _ => if endswith_slash a then a ++ b else a ++ "/" ++ b
       end.

End Py.

(** ** The fragment of [re] the script uses

    Patterns are kept as the source writes them and compiled by
    [re_compile]. The fragment has literal characters, [.], [\d], the greedy
    quantifiers [*] and [+] on one character, [^] and capture groups. *)

Module Re.

Inductive atom : Type :=
| Lit (c : ascii)
| Dot
| Digit.

Inductive item : Type :=
| One (a : atom)
| Star (a : atom)
| Plus (a : atom)
| Bol
| GOpen
| GClose.

Definition regex : Type := list item.

(** *** Compilation of the pattern text *)

Inductive token : Type :=
| TAtom (a : atom)
| TStar
| TPlus
| TBol
| TOpen
| TClose.

Fixpoint tokens (p : string) : list token :=
  match p with
  | "" => []
  | String "\" (String "d" p') => TAtom Digit :: tokens p'
  | String "\" (String c p') => TAtom (Lit c) :: tokens p'
  | String "." p' => TAtom Dot :: tokens p'
  | String "*" p' => TStar :: tokens p'
  | String "+" p' => TPlus :: tokens p'
  | String "^" p' => TBol :: tokens p'
  | String "(" p' => TOpen :: tokens p'
  | String ")" p' => TClose :: tokens p'
  | String c p' => TAtom (Lit c) :: tokens p'
  end.

Fixpoint items (ts : list token) : regex :=
  match ts with
  | [] => []
  | TAtom a :: TStar :: ts' => Star a :: items ts'
  | TAtom a :: TPlus :: ts' => Plus a :: items ts'
  | TAtom a :: ts' => One a :: items ts'
  | TBol :: ts' => Bol :: items ts'
  | TOpen :: ts' => GOpen :: items ts'
  | TClose :: ts' => GClose :: items ts'
  | (TStar | TPlus) :: ts' => items ts'
  end.
(* A quantifier with nothing to repeat, an error for [re], is in none of the
   script's patterns. *)

Definition re_compile (p : string) : regex := items (tokens p).

(** *** Matching *)

(** [.] matches every character but a line feed. *)
Definition atom_matches (a : atom) (c : ascii) : bool :=
  match a with
  | Lit d => Ascii.eqb c d
  | Dot => negb (Ascii.eqb c Py.LF)
  | Digit => Py.is_digit c
  end.

(** The groups closed so far (first group first) and the text of the group
    that is open, if one is. *)
Record caps : Type := { closed : list string; opened : option string }.

Definition no_caps : caps := {| closed := []; opened := None |}.

Definition push (c : ascii) (st : caps) : caps :=
  {| closed := closed st; opened := option_map (fun g => Py.snoc g c) (opened st) |}.

Definition open_group (st : caps) : caps :=
  {| closed := closed st; opened := Some "" |}.

Definition close_group (st : caps) : caps :=
  match opened st with
  | Some g => {| closed := closed st ++ [g]; opened := None |}
  | None => st
  end.

(** Greedy repetition of [a] followed by the continuation [k]: the longest
    run is tried first, then shorter ones. *)
Fixpoint star (k : bool -> caps -> string -> option (list string))
    (a : atom) (bos : bool) (st : caps) (s : string) : option (list string) :=
  match s with
  | String c s' =>
      if atom_matches a c then
        match star k a false (push c st) s' with
        | Some g => Some g
        | None => k bos st s
        end
      else k bos st s
  | "" => k bos st s
  end.

(** [match_items r bos st s]: match [r] at the beginning of [s]; [bos] tells
    whether this is the beginning of the searched string. The result is the
    tuple of groups of the match. *)
Fixpoint match_items (r : regex) (bos : bool) (st : caps) (s : string)
    {struct r} : option (list string) :=
  match r with
  | [] => Some (closed st)
  | One a :: r' =>
      match s with
      | String c s' =>
          if atom_matches a c then match_items r' false (push c st) s'
          else None
      | "" => None
      end
  | Star a :: r' => star (match_items r') a bos st s
  | Plus a :: r' =>
      match s with
      | String c s' =>
          if atom_matches a c then star (match_items r') a false (push c st) s'
          else None
      | "" => None
      end
  | Bol :: r' => if bos then match_items r' bos st s else None
  | GOpen :: r' => match_items r' bos (open_group st) s
  | GClose :: r' => match_items r' bos (close_group st) s
  end.

(** The leftmost match: every start position is tried in turn. *)
Fixpoint search_from (r : regex) (bos : bool) (s : string)
    : option (list string) :=
  match match_items r bos no_caps s with
  | Some g => Some g
  | None =>
      match s with
      | String _ s' => search_from r false s'
      | "" => None
      end
  end.

(** [re.search(pattern, s)]: [Some groups] for a match object, [None] for
    [None]. *)
Definition search (pattern : string) (s : string) : option (list string) :=
  search_from (re_compile pattern) true s.

End Re.

(** ** The script's constants and pure helpers *)

(** The settings read from [llvm-bolt-wrapper.ini], resolved once at start. *)
Record config : Type := {
  BASE_BOLT : string;
  CMP_BOLT : string;
  VERBOSE : bool;
  KEEP_TMP : bool;
  NO_MINIMIZE : bool;
  RUN_SEQUENTIALLY : bool;
  COMPARE_OUTPUT : bool;
  SKIP_BINARY_CMP : bool;
  TIMING_FILE : string
}.

Definition PERF2BOLT_MODE : list string := ["-aggregate-only"].

Definition MINIMIZE_DIFFS : list string := ["-bolt-info=0"].

(** The options of [BOLT_OUTPUT_OPTS], in the order of the dict. *)
Definition BOLT_OUTPUT_OPTS : list (string * string) :=
  [("-o", "BOLT output binary"); ("-w", "BOLT recorded profile")].

Definition SKIP_MATCH : list string :=
  ["BOLT-INFO: BOLT version";
   "^Args: ";
   "^BOLT-DEBUG:";
   "BOLT-INFO:.*data.*output data";
   "WARNING: reading perf data directly"].

Definition truthy {A : Type} (o : option A) : bool :=
  match o with Some _ => true | None => false end.

(** [prepend_dash]: the items of the dict, flattened, each key with a dash. *)
Fixpoint prepend_dash (args : list (string * string)) : list string :=
  match args with
  | [] => []
  | (key, value) :: args' => ("-" ++ key) :: value :: prepend_dash args'
  end.

(** [replace_cmp_path]: every value is moved to the folder [tmp]. *)
Definition replace_cmp_path (tmp : string) (args : list (string * string))
    : list string :=
  let new_args :=
    map (fun kv => (fst kv, Py.path_join tmp (Py.basename (snd kv)))) args in
  prepend_dash new_args.

(** [preprocess_args]: the attributes of the namespace whose value is true,
    that is neither [None] nor the empty string. *)
Fixpoint preprocess_args (args : list (string * option string))
    : list (string * string) :=
  match args with
  | [] => []
  | (key, Some value) :: args' =>
      if String.eqb value "" then preprocess_args args'
      else (key, value) :: preprocess_args args'
  | (key, None) :: args' => preprocess_args args'
  end.

(** The inner loop of [compare_logs] over the skip patterns: [true] when the
    loop is left by [break], [false] when it runs to its [else]. *)
Fixpoint skip_loop (skips : list string) (lhs rhs : string) : bool :=
  match skips with
  | [] => false
  | skip :: skips' =>
      if truthy (Re.search skip lhs) && truthy (Re.search skip rhs) then true
      else skip_loop skips' lhs rhs
  end.

(** The outer loop of [compare_logs] over the pairs of lines. *)
Fixpoint compare_pairs (pairs : list (string * string))
    : option (string * string) :=
  match pairs with
  | [] => None
  | (lhs, rhs) :: pairs' =>
      if negb (String.eqb lhs rhs) then
        if skip_loop SKIP_MATCH lhs rhs then compare_pairs pairs'
        else Some (lhs, rhs)
      else compare_pairs pairs'
  end.

(** The pairs [compare_logs] iterates over:
    [list(zip(main.splitlines(), cmp.splitlines()))[:-skip_end]]. *)
Definition compared_pairs (main cmp : string) (skip_end : Z)
    : list (string * string) :=
  Py.slice_to (combine (Py.splitlines main) (Py.splitlines cmp)) (- skip_end).

Definition compare_logs (main cmp : string) (skip_end : Z)
    : option (string * string) :=
  compare_pairs (compared_pairs main cmp skip_end).

Definition NL : string := String Py.LF "".

(** [fmt_cmp]. *)
Definition fmt_cmp (cmp_tuple : option (string * string)) : string :=
  match cmp_tuple with
  | None => ""
  | Some (l, r) => "main:" ++ NL ++ l ++ NL ++ "cmp:" ++ NL ++ r ++ NL
  end.

(** [parse_cmp_offset]: [None] stands for the [AttributeError] raised by
    [.groups()] on the [None] of a failed search. *)
Definition parse_cmp_offset (cmp_out : string) : option Z :=
  match Re.search "byte (\d+)," cmp_out with
  | Some groups => option_map Py.int (nth_error groups 0)
  | None => None
  end.

(** [get_real_from_stderr] of [report_real_time]: [None] stands for the
    [IndexError] of [log.splitlines()[-1]] on a log without lines. *)
Definition get_real_from_stderr (log : string) : option string :=
  option_map (fun line => Py.join "; " (Py.split line))
             (Py.last_item (Py.splitlines log)).

(** ** The environment and the effects of [main] *)

Inductive stream : Type := Stdout | Stderr.

(** The modes ['w'] and ['a'] of [open]. *)
Inductive mode : Type := ModeW | ModeA.

(** A finished child process. *)
Record process : Type := {
  stdout : string;
  stderr : string;
  returncode : Z
}.

(** The namespace [parse_known_args] returns for the options [-o] and [-w]. *)
Record namespace : Type := { ns_o : option string; ns_w : option string }.

Definition vars (ns : namespace) : list (string * option string) :=
  [("o", ns_o ns); ("w", ns_w ns)].

(** What the script observes of its environment. [popen n cmd] is the child
    started by the [n]-th call of [subprocess.Popen] with command line
    [cmd], as it is once waited for (after a time-out, as it is once
    killed). [cmp_tool] and [readelf] are the results of the external tools
    on the files present after both runs, [file_bytes] the contents of a
    file ([None] when it cannot be opened). *)
Record world : Type := {
  argv0 : string;
  parsed_args : namespace;
  unknownargs : list string;
  mkdtemp : string;
  popen : nat -> list string -> process;
  cmp_tool : string -> string -> process;
  readelf_tool : string -> process;
  file_bytes : string -> option (list Byte.byte)
}.

Inductive event : Type :=
| Print (f : stream) (txt : string)
| PrintCmd (cmd : list string)
| PrintInt (n : Z)
| WriteTo (filename : string) (m : mode) (txt : string)
| Popen (cmd : list string)
| Communicate (cmd : list string)
| Run (cmd : list string)
| OpenRb (filename : string)
| Rmtree (path : string).

Inductive exn : Type :=
| ValueError
| IndexError
| AttributeError
| CalledProcessError
| OSError.

(** The argument of [exit]/[sys.exit]: a status or a message. *)
Inductive exit_arg : Type :=
| ExitCode (n : Z)
| ExitMsg (msg : string).

Inductive outcome : Type :=
| SystemExit (a : exit_arg)
| Uncaught (e : exn).

(** The exit status of the interpreter: a message is printed to the error
    stream and gives status 1, as does an uncaught exception. *)
Definition exit_status (o : outcome) : Z :=
  match o with
  | SystemExit (ExitCode n) => n mod 256
  | SystemExit (ExitMsg _) => 1
  | Uncaught _ => 1
  end.

Inductive result (A : Type) : Type :=
| Ret (a : A)
| Stop (o : outcome).

Arguments Ret {A} a.
Arguments Stop {A} o.

(** A computation: the effects performed, in order, and how it ended. *)
Definition M (A : Type) : Type := (list event * result A)%type.

Definition ret {A : Type} (a : A) : M A := ([], Ret a).

Definition bind {A B : Type} (m : M A) (k : A -> M B) : M B :=
  match m with
  | (t, Ret a) => let (t', r) := k a in ((t ++ t')%list, r)
  | (t, Stop o) => (t, Stop o)
  end.

Definition emit (e : event) : M unit := ([e], Ret tt).

Definition raise {A : Type} (e : exn) : M A := ([], Stop (Uncaught e)).

Definition exit {A : Type} (a : exit_arg) : M A := ([], Stop (SystemExit a)).

Definition when (b : bool) (m : M unit) : M unit := if b then m else ret tt.

(** [x[...]] and the like: the value, or the exception of a failed lookup. *)
Definition orelse {A : Type} (o : option A) (e : exn) : M A :=
  match o with
  | Some a => ret a
  | None => raise e
  end.

Declare Scope py_scope.
Delimit Scope py_scope with py.
Notation "x <- m ;; k" := (bind m (fun x => k))
  (at level 61, m at next level, right associativity) : py_scope.
Notation "' pat <- m ;; k" := (bind m (fun x => match x with pat => k end))
  (at level 61, pat pattern, m at next level, right associativity) : py_scope.
Notation "m ;; k" := (bind m (fun _ => k))
  (at level 61, right associativity) : py_scope.
Open Scope py_scope.

Definition events {A : Type} (m : M A) : list event := fst m.

Definition ending {A : Type} (m : M A) : result A := snd m.

(** ** The effectful functions of the script *)

Section Script.

Variable cfg : config.
Variable w : world.

(** A [Popen] object: its command line and the process behind it. *)
Record handle : Type := { h_cmd : list string; h_proc : process }.

(** [run_cmd]; [n] counts the children started before, see [popen]. *)
Definition run_cmd (n : nat) (cmd : list string) : M handle :=
  when (VERBOSE cfg) (emit (PrintCmd cmd)) ;;
  emit (Popen cmd) ;;
  ret {| h_cmd := cmd; h_proc := popen w n cmd |}.

(** The command line [run_bolt] builds. *)
Definition bolt_cmd (bolt_path : string) (bolt_args : list string)
    : list string :=
  let p2b := String.eqb (Py.basename (argv0 w)) "perf2bolt" in
  let cmd := (["/usr/bin/time"; "-f"; "%e %M"; bolt_path] ++ bolt_args)%list in
  if p2b then (cmd ++ PERF2BOLT_MODE)%list
  else if negb (NO_MINIMIZE cfg) then (cmd ++ MINIMIZE_DIFFS)%list
  else cmd.

Definition run_bolt (n : nat) (bolt_path : string) (bolt_args : list string)
    : M handle :=
  run_cmd n (bolt_cmd bolt_path bolt_args).

Definition write_to (txt filename : string) (m : mode) : M unit :=
  emit (WriteTo filename m txt).

Definition wait (proc : handle) : M (string * string) :=
  emit (Communicate (h_cmd proc)) ;;
  ret (stdout (h_proc proc), stderr (h_proc proc)).

Definition readelf (binary : string) : M process :=
  emit (Run ["readelf"; "-We"; binary]) ;;
  let p := readelf_tool w binary in
  if returncode p =? 0 then ret p else raise CalledProcessError.

Definition compare_headers (lhs rhs : string) : M (option (string * string)) :=
  readelf_lhs <- readelf lhs ;;
  readelf_rhs <- readelf rhs ;;
  ret (compare_logs (stdout readelf_lhs) (stdout readelf_rhs) 0).

Definition report_real_time (binary main_err cmp_err : string) : M unit :=
  main <- orelse (get_real_from_stderr main_err) IndexError ;;
  cmp <- orelse (get_real_from_stderr cmp_err) IndexError ;;
  write_to (binary ++ "; " ++ main ++ "; " ++ cmp ++ NL) (TIMING_FILE cfg) ModeA.

Definition ELF_MAGIC : list Byte.byte :=
  [Byte.x7f; Byte.x45; Byte.x4c; Byte.x46].

Definition bytes_eqb (a b : list Byte.byte) : bool :=
  if list_eq_dec Byte.byte_eq_dec a b then true else false.

(** [l[l.index(x) + 1]]. *)
Definition item_after (x : string) (l : list string) : M string :=
  i <- orelse (Py.index x l) ValueError ;;
  orelse (nth_error l (i + 1)) IndexError.

Definition main : M unit :=
  (* intercept output arguments *)
  let args := preprocess_args (vars (parsed_args w)) in
  let cmp_args := args in
  let tmp := mkdtemp w in
  let cmp_args := replace_cmp_path tmp cmp_args in
  (* reconstruct output arguments: prepend dash *)
  let args := prepend_dash args in
  (* run both BOLT binaries *)
  main_bolt <- run_bolt 0 (BASE_BOLT cfg) (unknownargs w ++ args)%list ;;
  '(main_bolt_out, cmp_bolt) <-
    (if RUN_SEQUENTIALLY cfg then
       o <- wait main_bolt ;;
       c <- run_bolt 1 (CMP_BOLT cfg) (unknownargs w ++ cmp_args)%list ;;
       ret (o, c)
     else
       c <- run_bolt 1 (CMP_BOLT cfg) (unknownargs w ++ cmp_args)%list ;;
       o <- wait main_bolt ;;
       ret (o, c)) ;;
  let '(main_out, main_err) := main_bolt_out in
  '(cmp_out, cmp_err) <- wait cmp_bolt ;;
  (* compare logs *)
  let out := compare_logs main_out cmp_out 0 in
  let err := compare_logs main_err cmp_err 1 in
  (if negb (returncode (h_proc main_bolt) =? returncode (h_proc cmp_bolt))
      || (COMPARE_OUTPUT cfg && (truthy out || truthy err))
   then
     emit (Print Stdout tmp) ;;
     write_to main_out (Py.path_join tmp "main_bolt.stdout") ModeW ;;
     write_to cmp_out (Py.path_join tmp "cmp_bolt.stdout") ModeW ;;
     write_to main_err (Py.path_join tmp "main_bolt.stderr") ModeW ;;
     write_to cmp_err (Py.path_join tmp "cmp_bolt.stderr") ModeW ;;
     write_to (fmt_cmp out ++ fmt_cmp err) (Py.path_join tmp "summary.txt") ModeW ;;
     exit (ExitMsg "exitcode or logs mismatch")
   else ret tt) ;;
  (* compare binaries (using cmp) *)
  main_binary <- item_after "-o" args ;;
  cmp_binary <- item_after "-o" cmp_args ;;
  (* report binary timing as csv *)
  report_real_time main_binary main_err cmp_err ;;
  (if negb (SKIP_BINARY_CMP cfg) then
     emit (Run ["cmp"; main_binary; cmp_binary]) ;;
     let cmp_proc := cmp_tool w main_binary cmp_binary in
     if negb (returncode cmp_proc =? 0) then
       (* check if output is an ELF file (magic bytes) *)
       emit (OpenRb main_binary) ;;
       f <- orelse (file_bytes w main_binary) OSError ;;
       let magic := firstn 4 f in
       (if negb (bytes_eqb magic ELF_MAGIC) then exit (ExitMsg "output mismatch")
        else ret tt) ;;
       (* check if ELF headers match *)
       hdr <- compare_headers main_binary cmp_binary ;;
       (if truthy hdr then
          emit (Print Stdout (fmt_cmp hdr)) ;;
          write_to (fmt_cmp hdr) (Py.path_join tmp "headers.txt") ModeW ;;
          exit (ExitMsg "headers mismatch")
        else ret tt) ;;
       (* check which section has the first mismatch *)
       mismatch_offset <- orelse (parse_cmp_offset (stdout cmp_proc)) AttributeError ;;
       emit (PrintInt mismatch_offset) ;;
       exit (ExitMsg "binaries mismatch")
     else ret tt
   else ret tt) ;;
  (* temp files are only cleaned on success *)
  when (negb (KEEP_TMP cfg)) (emit (Rmtree tmp)) ;;
  (* report stdout and stderr from the main process *)
  emit (Print Stdout main_out) ;;
  emit (Print Stderr main_err) ;;
  exit (ExitCode (returncode (h_proc main_bolt))).

End Script.

(** * Vocabulary of the statements *)

(** Both lines match the same entry of the skip list. *)
Definition tolerated_by (skips : list string) (lhs rhs : string) : Prop :=
  exists skip, In skip skips
               /\ Re.search skip lhs <> None /\ Re.search skip rhs <> None.

Definition tolerated : string -> string -> Prop := tolerated_by SKIP_MATCH.

(** A pair of lines the comparison lets pass. *)
Definition passes (p : string * string) : Prop :=
  fst p = snd p \/ tolerated (fst p) (snd p).

(** The comparison as the design describes it: the lines are paired
    positionally, the last [skip] pairs are left out, and the first pair that
    does not pass is returned. *)
Definition drop_last {A : Type} (skip : nat) (l : list A) : list A :=
  firstn (List.length l - skip) l.

Definition compare_lines_spec (main cmp : string) (skip : nat)
    : option (string * string) :=
  compare_pairs (drop_last skip (combine (Py.splitlines main) (Py.splitlines cmp))).

Fixpoint all_digits (s : string) : bool :=
  match s with
  | "" => true
  | String c s' => Py.is_digit c && all_digits s'
  end.

(** An occurrence of [byte N,] in [s]: [s] is [pre], then [byte ], then the
    non-empty string of digits [ds], then a comma, then [post]. *)
Definition byte_pattern_at (pre ds post s : string) : Prop :=
  s = pre ++ "byte " ++ ds ++ "," ++ post /\ ds <> "" /\ all_digits ds = true.

Definition has_byte_pattern (s : string) : Prop :=
  exists pre ds post, byte_pattern_at pre ds post s.

(** [ds] is the number of the leftmost occurrence. *)
Definition first_byte_pattern (s ds : string) : Prop :=
  exists pre post,
    byte_pattern_at pre ds post s
    /\ forall pre' ds' post',
         byte_pattern_at pre' ds' post' s ->
         (String.length pre <= String.length pre')%nat.

(** The compiled form of the pattern of [parse_cmp_offset]. *)
Definition byte_re : Re.regex :=
  [Re.One (Re.Lit "b"); Re.One (Re.Lit "y"); Re.One (Re.Lit "t");
   Re.One (Re.Lit "e"); Re.One (Re.Lit " ");
   Re.GOpen; Re.Plus Re.Digit; Re.GClose; Re.One (Re.Lit ",")].

(** The two runs of an invocation: the output arguments of the base run and
    of the comparison run, and the two child processes. *)
Section Runs.

Variable cfg : config.
Variable w : world.

Definition base_args : list string :=
  prepend_dash (preprocess_args (vars (parsed_args w))).

Definition cmp_args : list string :=
  replace_cmp_path (mkdtemp w) (preprocess_args (vars (parsed_args w))).

Definition base_cmd : list string :=
  bolt_cmd cfg w (BASE_BOLT cfg) (unknownargs w ++ base_args).

Definition cmp_cmd : list string :=
  bolt_cmd cfg w (CMP_BOLT cfg) (unknownargs w ++ cmp_args).

Definition main_bolt : process := popen w 0 base_cmd.

Definition cmp_bolt : process := popen w 1 cmp_cmd.

(** The comparison of the two standard outputs and of the two standard
    errors, as [main] calls it. *)
Definition out_mismatch : option (string * string) :=
  compare_logs (stdout main_bolt) (stdout cmp_bolt) 0.

Definition err_mismatch : option (string * string) :=
  compare_logs (stderr main_bolt) (stderr cmp_bolt) 1.

(** The condition under which [main] stops after the comparison of the
    logs. *)
Definition fatal_mismatch : Prop :=
  returncode main_bolt <> returncode cmp_bolt
  \/ (COMPARE_OUTPUT cfg = true
      /\ (out_mismatch <> None \/ err_mismatch <> None)).

Definition fatal_b : bool :=
  negb (returncode main_bolt =? returncode cmp_bolt)
  || (COMPARE_OUTPUT cfg && (truthy out_mismatch || truthy err_mismatch)).

(** The events of starting and awaiting the two children: a command is
    echoed before it is started when [VERBOSE] is set, and the comparison run
    is started after the base run has ended when [RUN_SEQUENTIALLY] is. *)
Definition spawn_events (cmd : list string) : list event :=
  ((if VERBOSE cfg then [PrintCmd cmd] else []) ++ [Popen cmd])%list.

Definition launch_events : list event :=
  if RUN_SEQUENTIALLY cfg then
    (spawn_events base_cmd ++ [Communicate base_cmd]
     ++ spawn_events cmp_cmd ++ [Communicate cmp_cmd])%list
  else
    (spawn_events base_cmd ++ spawn_events cmp_cmd
     ++ [Communicate base_cmd; Communicate cmp_cmd])%list.

(** The files written when the comparison of the logs is fatal. *)
Definition postmortem_events : list event :=
  let tmp := mkdtemp w in
  [Print Stdout tmp;
   WriteTo (Py.path_join tmp "main_bolt.stdout") ModeW (stdout main_bolt);
   WriteTo (Py.path_join tmp "cmp_bolt.stdout") ModeW (stdout cmp_bolt);
   WriteTo (Py.path_join tmp "main_bolt.stderr") ModeW (stderr main_bolt);
   WriteTo (Py.path_join tmp "cmp_bolt.stderr") ModeW (stderr cmp_bolt);
   WriteTo (Py.path_join tmp "summary.txt") ModeW
     (fmt_cmp out_mismatch ++ fmt_cmp err_mismatch)].

(** The record [report_real_time] writes for the binary [binary] and the
    timing fields [t1] and [t2] of the two runs. *)
Definition timing_record (binary t1 t2 : string) : string :=
  binary ++ "; " ++ t1 ++ "; " ++ t2 ++ NL.

(** The path of the output binary of the comparison run for the path [o]
    given with [-o]. *)
Definition cmp_binary_of (o : string) : string :=
  Py.path_join (mkdtemp w) (Py.basename o).

(** The binaries are compared and found different by [cmp]. *)
Definition binaries_differ (o : string) : Prop :=
  SKIP_BINARY_CMP cfg = false
  /\ returncode (cmp_tool w o (cmp_binary_of o)) <> 0.

(** The events after a successful comparison: the temporary folder is
    removed unless it is kept, and the output of the base run is printed. *)
Definition success_events : list event :=
  ((if KEEP_TMP cfg then [] else [Rmtree (mkdtemp w)])
   ++ [Print Stdout (stdout main_bolt); Print Stderr (stderr main_bolt)])%list.

Definition is_elf (f : list Byte.byte) : Prop := firstn 4 f = ELF_MAGIC.

(** The ways the comparison of the binaries [o] and [cmp_binary_of o] can
    go: the events it performs and how [main] ends. *)
Inductive binary_run (o : string) : list event -> result unit -> Prop :=
| bin_skipped :
    SKIP_BINARY_CMP cfg = true ->
    binary_run o success_events
      (Stop (SystemExit (ExitCode (returncode main_bolt))))
| bin_identical :
    SKIP_BINARY_CMP cfg = false ->
    returncode (cmp_tool w o (cmp_binary_of o)) = 0 ->
    binary_run o (Run ["cmp"; o; cmp_binary_of o] :: success_events)
      (Stop (SystemExit (ExitCode (returncode main_bolt))))
| bin_unreadable :
    binaries_differ o ->
    file_bytes w o = None ->
    binary_run o [Run ["cmp"; o; cmp_binary_of o]; OpenRb o]
      (Stop (Uncaught OSError))
| bin_not_elf (f : list Byte.byte) :
    binaries_differ o ->
    file_bytes w o = Some f -> ~ is_elf f ->
    binary_run o [Run ["cmp"; o; cmp_binary_of o]; OpenRb o]
      (Stop (SystemExit (ExitMsg "output mismatch")))
| bin_readelf_fails_lhs (f : list Byte.byte) :
    binaries_differ o ->
    file_bytes w o = Some f -> is_elf f ->
    returncode (readelf_tool w o) <> 0 ->
    binary_run o
      [Run ["cmp"; o; cmp_binary_of o]; OpenRb o; Run ["readelf"; "-We"; o]]
      (Stop (Uncaught CalledProcessError))
| bin_readelf_fails_rhs (f : list Byte.byte) :
    binaries_differ o ->
    file_bytes w o = Some f -> is_elf f ->
    returncode (readelf_tool w o) = 0 ->
    returncode (readelf_tool w (cmp_binary_of o)) <> 0 ->
    binary_run o
      [Run ["cmp"; o; cmp_binary_of o]; OpenRb o; Run ["readelf"; "-We"; o];
       Run ["readelf"; "-We"; cmp_binary_of o]]
      (Stop (Uncaught CalledProcessError))
| bin_no_offset (f : list Byte.byte) :
    binaries_differ o ->
    file_bytes w o = Some f -> is_elf f ->
    returncode (readelf_tool w o) = 0 ->
    returncode (readelf_tool w (cmp_binary_of o)) = 0 ->
    parse_cmp_offset (stdout (cmp_tool w o (cmp_binary_of o))) = None ->
    binary_run o
      [Run ["cmp"; o; cmp_binary_of o]; OpenRb o; Run ["readelf"; "-We"; o];
       Run ["readelf"; "-We"; cmp_binary_of o]]
      (Stop (Uncaught AttributeError))
| bin_offset (f : list Byte.byte) (n : Z) :
    binaries_differ o ->
    file_bytes w o = Some f -> is_elf f ->
    returncode (readelf_tool w o) = 0 ->
    returncode (readelf_tool w (cmp_binary_of o)) = 0 ->
    parse_cmp_offset (stdout (cmp_tool w o (cmp_binary_of o))) = Some n ->
    binary_run o
      [Run ["cmp"; o; cmp_binary_of o]; OpenRb o; Run ["readelf"; "-We"; o];
       Run ["readelf"; "-We"; cmp_binary_of o]; PrintInt n]
      (Stop (SystemExit (ExitMsg "binaries mismatch"))).

(** The ways a run of [main] can go. *)
Inductive main_run : M unit -> Prop :=
| run_fatal :
    fatal_mismatch ->
    main_run ((launch_events ++ postmortem_events)%list,
              Stop (SystemExit (ExitMsg "exitcode or logs mismatch")))
| run_no_output (e : exn) :
    ~ fatal_mismatch ->
    ns_o (parsed_args w) = None \/ ns_o (parsed_args w) = Some "" ->
    e = ValueError \/ e = IndexError ->
    main_run (launch_events, Stop (Uncaught e))
| run_no_timing (o : string) :
    ~ fatal_mismatch ->
    ns_o (parsed_args w) = Some o -> o <> "" ->
    get_real_from_stderr (stderr main_bolt) = None
    \/ get_real_from_stderr (stderr cmp_bolt) = None ->
    main_run (launch_events, Stop (Uncaught IndexError))
| run_binaries (o t1 t2 : string) (t : list event) (r : result unit) :
    ~ fatal_mismatch ->
    ns_o (parsed_args w) = Some o -> o <> "" ->
    get_real_from_stderr (stderr main_bolt) = Some t1 ->
    get_real_from_stderr (stderr cmp_bolt) = Some t2 ->
    binary_run o t r ->
    main_run ((launch_events
               ++ WriteTo (TIMING_FILE cfg) ModeA (timing_record o t1 t2) :: t)%list,
              r).

End Runs.

(** The exit status of a run of [main]. *)
Definition exit_status_of {A : Type} (m : M A) : Z :=
  match ending m with
  | Ret _ => 0
  | Stop o => exit_status o
  end.

(** The content of the file [name] after the writes among the events [t],
    when it was [old] before. *)
Fixpoint file_after (name : string) (old : string) (t : list event) : string :=
  match t with
  | [] => old
  | WriteTo f m txt :: t' =>
      if String.eqb f name then
        file_after name (match m with ModeW => txt | ModeA => old ++ txt end) t'
      else file_after name old t'
  | _ :: t' => file_after name old t'
  end.

Definition is_write (e : event) : bool :=
  match e with WriteTo _ _ _ => true | _ => false end.

(** The timing record as the design describes it: within the field of a run
    the elapsed seconds and the peak memory are separated by a space. *)
Definition spec_timing_record
    (binary elapsed_base mem_base elapsed_cmp mem_cmp : string) : string :=
  binary ++ "; " ++ elapsed_base ++ " " ++ mem_base
         ++ "; " ++ elapsed_cmp ++ " " ++ mem_cmp ++ NL.

(** The design's statement on the timing log, for one invocation: when the
    logs pass, the only write is the append of that record. *)
Definition spec_timing_claim (cfg : config) (w : world) : Prop :=
  forall o e1 m1 e2 m2 : string,
    ~ fatal_mismatch cfg w ->
    ns_o (parsed_args w) = Some o ->
    Py.last_item (Py.splitlines (stderr (main_bolt cfg w))) = Some (e1 ++ " " ++ m1) ->
    Py.last_item (Py.splitlines (stderr (cmp_bolt cfg w))) = Some (e2 ++ " " ++ m2) ->
    filter is_write (events (main cfg w))
    = [WriteTo (TIMING_FILE cfg) ModeA (spec_timing_record o e1 m1 e2 m2)].

(** ** Sample invocations *)

Definition sample_cfg : config :=
  {| BASE_BOLT := "/base/llvm-bolt.real";
     CMP_BOLT := "/cmp/llvm-bolt";
     VERBOSE := false;
     KEEP_TMP := false;
     NO_MINIMIZE := false;
     RUN_SEQUENTIALLY := false;
     COMPARE_OUTPUT := true;
     SKIP_BINARY_CMP := false;
     TIMING_FILE := "timing.log" |}.

(** An invocation [llvm-bolt a.out [-o o]] whose base run ends as [base] and
    whose comparison run ends as [cmp]; [cmp_result] is what [cmp] reports on
    the two output files, [bytes] the contents of the output of the base run
    and [hdr_base], [hdr_cmp] what [readelf] prints for the two outputs. *)
Definition sample_world (o : option string) (base cmp cmp_result : process)
    (bytes : option (list Byte.byte)) (hdr_base hdr_cmp : string) : world :=
  {| argv0 := "/base/llvm-bolt";
     parsed_args := {| ns_o := o; ns_w := None |};
     unknownargs := ["a.out"];
     mkdtemp := "/tmp/tmpx";
     popen := fun n _ => match n with O => base | _ => cmp end;
     cmp_tool := fun _ _ => cmp_result;
     readelf_tool := fun binary =>
       {| stdout := if String.eqb binary "out/a.bolt" then hdr_base else hdr_cmp;
          stderr := "";
          returncode := 0 |};
     file_bytes := fun _ => bytes |}.

Definition base_ok : process :=
  {| stdout := "BOLT-INFO: 10 functions" ++ NL;
     stderr := "BOLT-INFO: BOLT version 1" ++ NL ++ "1.00 200" ++ NL;
     returncode := 0 |}.

Definition cmp_ok : process :=
  {| stdout := "BOLT-INFO: 10 functions" ++ NL;
     stderr := "BOLT-INFO: BOLT version 2" ++ NL ++ "2.00 300" ++ NL;
     returncode := 0 |}.

Definition cmp_same : process :=
  {| stdout := ""; stderr := ""; returncode := 0 |}.

(** [cmp] on two ELF files whose entry points differ: the first different
    byte is the second byte of [e_entry], byte 26 of the file. *)
Definition cmp_differ : process :=
  {| stdout := "out/a.bolt /tmp/tmpx/a.bolt differ: byte 26, line 1" ++ NL;
     stderr := "";
     returncode := 1 |}.

(** [cmp] on two scripts that differ in their second line. *)
Definition cmp_differ_script : process :=
  {| stdout := "out/a.bolt /tmp/tmpx/a.bolt differ: byte 25, line 2" ++ NL;
     stderr := "";
     returncode := 1 |}.

(** [cmp] when one file is a strict prefix of the other: the message goes to
    the standard error. *)
Definition cmp_eof : process :=
  {| stdout := "";
     stderr := "cmp: EOF on out/a.bolt after byte 64, in line 1" ++ NL;
     returncode := 1 |}.

(** An ELF64 header with entry point 0x400000. *)
Definition elf_bytes : list Byte.byte :=
  [Byte.x7f; Byte.x45; Byte.x4c; Byte.x46; Byte.x02; Byte.x01; Byte.x01; Byte.x00;
   Byte.x00; Byte.x00; Byte.x00; Byte.x00; Byte.x00; Byte.x00; Byte.x00; Byte.x00;
   Byte.x02; Byte.x00; Byte.x3e; Byte.x00; Byte.x01; Byte.x00; Byte.x00; Byte.x00;
   Byte.x00; Byte.x00; Byte.x40; Byte.x00; Byte.x00; Byte.x00; Byte.x00; Byte.x00;
   Byte.x40; Byte.x00; Byte.x00; Byte.x00; Byte.x00; Byte.x00; Byte.x00; Byte.x00;
   Byte.x00; Byte.x00; Byte.x00; Byte.x00; Byte.x00; Byte.x00; Byte.x00; Byte.x00;
   Byte.x00; Byte.x00; Byte.x00; Byte.x00; Byte.x40; Byte.x00; Byte.x38; Byte.x00;
   Byte.x00; Byte.x00; Byte.x40; Byte.x00; Byte.x00; Byte.x00; Byte.x00; Byte.x00].

(** A shell script. *)
Definition script_bytes : list Byte.byte :=
  list_byte_of_string ("#!/bin/sh" ++ NL ++ "echo built by base" ++ NL).

Definition hdr_a : string :=
  "ELF Header:" ++ NL ++ "  Entry point address: 0x400000" ++ NL.

Definition hdr_b : string :=
  "ELF Header:" ++ NL ++ "  Entry point address: 0x401000" ++ NL.

(** Both runs agree and the outputs are identical. *)
Definition world_identical : world :=
  sample_world (Some "out/a.bolt") base_ok cmp_ok cmp_same (Some elf_bytes)
    hdr_a hdr_a.

(** The outputs differ and are not ELF files. *)
Definition world_not_elf : world :=
  sample_world (Some "out/a.bolt") base_ok cmp_ok cmp_differ_script
    (Some script_bytes)
    "" "".

(** The outputs are ELF files that differ, with different headers. *)
Definition world_headers : world :=
  sample_world (Some "out/a.bolt") base_ok cmp_ok cmp_differ (Some elf_bytes)
    hdr_a hdr_b.

(** The outputs are ELF files, one a strict prefix of the other. *)
Definition world_prefix : world :=
  sample_world (Some "out/a.bolt") base_ok cmp_ok cmp_eof (Some elf_bytes)
    hdr_a hdr_a.

(** Two tools that do nothing and succeed, started without [-o]: under
    [/usr/bin/time] the standard error holds the timing line only. *)
Definition noop : process :=
  {| stdout := ""; stderr := "0.00 1024" ++ NL; returncode := 0 |}.

Definition world_noop : world :=
  {| argv0 := "/base/llvm-bolt";
     parsed_args := {| ns_o := None; ns_w := None |};
     unknownargs := [];
     mkdtemp := "/tmp/tmpx";
     popen := fun _ _ => noop;
     cmp_tool := fun _ _ => cmp_same;
     readelf_tool := fun _ => cmp_same;
     file_bytes := fun _ => None |}.

(** ** Further vocabulary *)

(** A reported pair with its two sides exchanged. *)
Definition swap_pair (p : string * string) : string * string := (snd p, fst p).



(** The settings [cfg] with other values of [RUN_SEQUENTIALLY] and
    [VERBOSE]. *)
Definition with_launch (seq verbose : bool) (cfg : config) : config :=
  {| BASE_BOLT := BASE_BOLT cfg;
     CMP_BOLT := CMP_BOLT cfg;
     VERBOSE := verbose;
     KEEP_TMP := KEEP_TMP cfg;
     NO_MINIMIZE := NO_MINIMIZE cfg;
     RUN_SEQUENTIALLY := seq;
     COMPARE_OUTPUT := COMPARE_OUTPUT cfg;
     SKIP_BINARY_CMP := SKIP_BINARY_CMP cfg;
     TIMING_FILE := TIMING_FILE cfg |}.


(** How [main] ends on success. *)
Definition success_ending (cfg : config) (w : world) : result unit :=
  Stop (SystemExit (ExitCode (returncode (main_bolt cfg w)))).

(** [sample_cfg] without the comparison of the binaries. *)
Definition sample_cfg_skip : config :=
  {| BASE_BOLT := "/base/llvm-bolt.real";
     CMP_BOLT := "/cmp/llvm-bolt";
     VERBOSE := false;
     KEEP_TMP := false;
     NO_MINIMIZE := false;
     RUN_SEQUENTIALLY := false;
     COMPARE_OUTPUT := true;
     SKIP_BINARY_CMP := true;
     TIMING_FILE := "timing.log" |}.

(** The comparison run fails where the base run succeeds. *)
Definition cmp_failed : process :=
  {| stdout := "";
     stderr := "BOLT-ERROR: could not open input" ++ NL ++ "0.01 900" ++ NL;
     returncode := 1 |}.

Definition world_exit_codes : world :=
  sample_world (Some "out/a.bolt") base_ok cmp_failed cmp_same (Some elf_bytes)
    hdr_a hdr_a.

(** The base run was killed before the timing harness wrote anything. *)
Definition silent : process :=
  {| stdout := ""; stderr := ""; returncode := -9 |}.

Definition world_silent : world :=
  sample_world (Some "out/a.bolt") silent silent cmp_same (Some elf_bytes)
    hdr_a hdr_a.

(** ** The lines the skip patterns stand for *)

Definition contains (sub line : string) : Prop :=
  exists pre post, line = pre ++ sub ++ post.

Definition begins_with (pre line : string) : Prop :=
  exists post, line = pre ++ post.

Fixpoint no_lf (s : string) : bool :=
  match s with
  | "" => true
  | String c s' => negb (Ascii.eqb c Py.LF) && no_lf s'
  end.

(** [BOLT-INFO:], later [data], later [output data], with no line feed in
    between. *)
Definition is_data_info (line : string) : Prop :=
  exists pre m1 m2 post,
    line = pre ++ "BOLT-INFO:" ++ m1 ++ "data" ++ m2 ++ "output data" ++ post
    /\ no_lf m1 = true /\ no_lf m2 = true.

(** The regular expression of a literal text. *)
Fixpoint lits (l : string) : Re.regex :=
  match l with
  | "" => []
  | String c l' => Re.One (Re.Lit c) :: lits l'
  end.

Definition is_bol (i : Re.item) : bool :=
  match i with Re.Bol => true | _ => false end.

Definition no_bol (r : Re.regex) : bool := forallb (fun i => negb (is_bol i)) r.

(** * Properties of the log comparison *)

Section LogComparator.

Lemma truthy_true {A : Type} (o : option A) : truthy o = true <-> o <> None.
Proof. destruct o; simpl; split; congruence. Qed.

Lemma skip_loop_spec (skips : list string) (lhs rhs : string) :
  skip_loop skips lhs rhs = true <-> tolerated_by skips lhs rhs.
Proof.
  induction skips as [|skip skips IH]; simpl.
  - split; [discriminate | intros (x & [] & _)].
  - destruct (truthy (Re.search skip lhs) && truthy (Re.search skip rhs)) eqn:E.
    + split; [intros _ | reflexivity].
      apply andb_true_iff in E. destruct E as [E1 E2].
      exists skip. split; [now left|].
      split; apply truthy_true; assumption.
    + rewrite IH. split.
      * intros (x & Hin & H1 & H2). exists x.
        split; [now right | now split].
      * intros (x & [<- | Hin] & H1 & H2).
        -- apply truthy_true in H1, H2. rewrite H1, H2 in E. discriminate.
        -- exists x. now repeat split.
Qed.

Lemma tolerated_dec (lhs rhs : string) : {tolerated lhs rhs} + {~ tolerated lhs rhs}.
Proof.
  destruct (skip_loop SKIP_MATCH lhs rhs) eqn:E.
  - left. now apply skip_loop_spec.
  - right. intros H. apply skip_loop_spec in H. unfold tolerated in *. congruence.
Qed.

(** One step of the outer loop. *)
Lemma compare_pairs_cons (lhs rhs : string) (pairs : list (string * string)) :
  (passes (lhs, rhs) -> compare_pairs ((lhs, rhs) :: pairs) = compare_pairs pairs)
  /\ (~ passes (lhs, rhs) -> compare_pairs ((lhs, rhs) :: pairs) = Some (lhs, rhs)).
Proof.
  unfold passes; cbn [compare_pairs fst snd].
  destruct (String.eqb_spec lhs rhs) as [->|Hne]; cbn [negb].
  - split; [reflexivity | intros H; exfalso; auto].
  - destruct (skip_loop SKIP_MATCH lhs rhs) eqn:E.
    + split; [reflexivity | intros H; exfalso; apply H; right].
      now apply skip_loop_spec.
    + split; [intros [H | H]; [contradiction|] | reflexivity].
      apply skip_loop_spec in H. congruence.
Qed.

(** The outer loop returns the first pair that does not pass. *)
Lemma compare_pairs_spec (pairs : list (string * string)) :
  match compare_pairs pairs with
  | None => Forall passes pairs
  | Some p => exists pre post,
      pairs = (pre ++ p :: post)%list /\ Forall passes pre /\ ~ passes p
  end.
Proof.
  induction pairs as [|[lhs rhs] pairs IH].
  - constructor.
  - destruct (compare_pairs_cons lhs rhs pairs) as [Hp Hn].
    assert (Hdec : passes (lhs, rhs) \/ ~ passes (lhs, rhs)).
    { unfold passes; simpl.
      destruct (String.eqb_spec lhs rhs) as [Heq|Hne]; [now left; left|].
      destruct (tolerated_dec lhs rhs) as [Ht|Ht]; [now left; right|].
      right. intros [H|H]; contradiction. }
    destruct Hdec as [Hpass|Hfail].
    + rewrite (Hp Hpass).
      destruct (compare_pairs pairs) as [p|].
      * destruct IH as (pre & post & -> & Hpre & Hnp).
        exists ((lhs, rhs) :: pre), post.
        split; [reflexivity|]. split; [now constructor | exact Hnp].
      * now constructor.
    + rewrite (Hn Hfail).
      exists [], pairs.
      split; [reflexivity|]. split; [constructor | exact Hfail].
Qed.

Lemma compare_pairs_none (pairs : list (string * string)) :
  Forall passes pairs -> compare_pairs pairs = None.
Proof.
  induction 1 as [|[lhs rhs] pairs Hp _ IH]; [reflexivity|].
  now rewrite (proj1 (compare_pairs_cons lhs rhs pairs) Hp).
Qed.

(** With [skip_end = 0] the slice [[:-0]] is [[:0]]: nothing is compared. *)
Lemma slice_to_0 {A : Type} (l : list A) : Py.slice_to l (- 0) = [].
Proof.
  unfold Py.slice_to. simpl.
  now rewrite Z.min_l by lia.
Qed.

Lemma compare_logs_0 (main cmp : string) : compare_logs main cmp 0 = None.
Proof. unfold compare_logs, compared_pairs. now rewrite slice_to_0. Qed.

Lemma Forall_firstn_passes {A : Type} (P : A -> Prop) (n : nat) (l : list A) :
  Forall P l -> Forall P (firstn n l).
Proof.
  intros H. revert n.
  induction H as [|x l Hx _ IH]; intros [|n]; simpl; constructor; auto.
Qed.

Lemma Forall_slice_to {A : Type} (P : A -> Prop) (l : list A) (stop : Z) :
  Forall P l -> Forall P (Py.slice_to l stop).
Proof. intros H. unfold Py.slice_to. now apply Forall_firstn_passes. Qed.

Lemma combine_same (l extra : list string) :
  Forall passes (combine l (l ++ extra)) /\ Forall passes (combine (l ++ extra) l).
Proof.
  induction l as [|x l [IH1 IH2]]; simpl.
  - split; [constructor | destruct extra; constructor].
  - split; constructor; auto; now left.
Qed.

(** C1. With [skip_end = 0], as in the comparison of the standard outputs,
    [compare_logs] compares no pair at all: it returns [None] for the texts
    ["a"] and ["b"] (and for every other pair of texts), where the positional
    comparison of all line pairs returns the mismatching pair. *)
Theorem compare_logs_skip0_compares_nothing :
  compare_logs "a" "b" 0 = None
  /\ compare_lines_spec "a" "b" 0 = Some ("a", "b")
  /\ forall main cmp : string, compare_logs main cmp 0 = None.
Proof.
  split; [reflexivity|]. split; [reflexivity|]. exact compare_logs_0.
Qed.

(** C2. Inside [compare_logs], a pair of different lines is passed over
    exactly when both lines match the same entry of [SKIP_MATCH], and is
    returned otherwise; hence the result of [compare_logs] is the first
    compared pair of different lines that no single entry matches on both
    sides. A pattern that matches one line only, or two patterns that match
    one line each, do not make the pair pass. *)
Theorem compare_logs_tolerance :
  (forall (lhs rhs : string) (pairs : list (string * string)),
      lhs <> rhs ->
      (tolerated lhs rhs ->
       compare_pairs ((lhs, rhs) :: pairs) = compare_pairs pairs)
      /\ (~ tolerated lhs rhs <->
          compare_pairs ((lhs, rhs) :: pairs) = Some (lhs, rhs)))
  /\ (forall (main cmp : string) (skip_end : Z),
         match compare_logs main cmp skip_end with
         | None => Forall passes (compared_pairs main cmp skip_end)
         | Some (lhs, rhs) =>
             exists pre post,
               compared_pairs main cmp skip_end = (pre ++ (lhs, rhs) :: post)%list
               /\ Forall passes pre /\ lhs <> rhs /\ ~ tolerated lhs rhs
         end)
  /\ compare_logs ("BOLT-INFO: BOLT version 1" ++ NL ++ "t")
                  ("BOLT-INFO: BOLT version 2" ++ NL ++ "t") 1 = None
  /\ compare_logs ("BOLT-INFO: BOLT version 1" ++ NL ++ "t")
                  ("some other line" ++ NL ++ "t") 1
     = Some ("BOLT-INFO: BOLT version 1", "some other line")
  /\ compare_logs ("BOLT-INFO: BOLT version 1" ++ NL ++ "t")
                  ("BOLT-DEBUG: x" ++ NL ++ "t") 1
     = Some ("BOLT-INFO: BOLT version 1", "BOLT-DEBUG: x").
Proof.
  split; [|split; [|repeat split; reflexivity]].
  - intros lhs rhs pairs Hne.
    destruct (compare_pairs_cons lhs rhs pairs) as [Hp Hn].
    assert (Hpass : passes (lhs, rhs) <-> tolerated lhs rhs).
    { unfold passes; simpl. split; [intros [H|H]; [contradiction | exact H] | now right]. }
    assert (Hlater : compare_pairs pairs = Some (lhs, rhs) -> ~ tolerated lhs rhs).
    { intros E Ht. pose proof (compare_pairs_spec pairs) as Hs. rewrite E in Hs.
      destruct Hs as (pre & post & _ & _ & Hnp). apply Hnp. now apply Hpass. }
    destruct (tolerated_dec lhs rhs) as [Ht|Ht].
    + pose proof (Hp (proj2 Hpass Ht)) as E. split; [|split]; intros H.
      * exact E.
      * contradiction.
      * rewrite E in H. now apply Hlater.
    + assert (E : compare_pairs ((lhs, rhs) :: pairs) = Some (lhs, rhs)).
      { apply Hn. intros H. apply Ht. now apply Hpass. }
      split; [|split]; intros H.
      * contradiction.
      * exact E.
      * exact Ht.
  - intros main cmp skip_end. unfold compare_logs.
    pose proof (compare_pairs_spec (compared_pairs main cmp skip_end)) as Hs.
    destruct (compare_pairs (compared_pairs main cmp skip_end)) as [[lhs rhs]|];
      [|exact Hs].
    destruct Hs as (pre & post & E & Hpre & Hnp).
    exists pre, post. split; [exact E|]. split; [exact Hpre|].
    split; intros H; apply Hnp; [left | right]; exact H.
Qed.

(** C9. Lines beyond the shorter text are never compared: when the lines of
    one text are those of the other followed by more lines, [compare_logs]
    reports no mismatch, whichever side is the longer and whatever
    [skip_end] is; and no more pairs are compared than the shorter text has
    lines. *)
Theorem compare_logs_ignores_extra_lines
    (main cmp : string) (extra : list string) (skip_end : Z) :
  Py.splitlines cmp = (Py.splitlines main ++ extra)%list ->
  compare_logs main cmp skip_end = None
  /\ compare_logs cmp main skip_end = None
  /\ (List.length (compared_pairs main cmp skip_end)
      <= List.length (Py.splitlines main))%nat.
Proof.
  intros H. unfold compare_logs, compared_pairs. rewrite H.
  destruct (combine_same (Py.splitlines main) extra) as [H1 H2].
  split; [|split].
  - apply compare_pairs_none. now apply Forall_slice_to.
  - apply compare_pairs_none. now apply Forall_slice_to.
  - unfold Py.slice_to. rewrite length_firstn, length_combine. lia.
Qed.

Lemma compare_logs_ignores_extra_lines_witness :
  compare_logs ("a" ++ NL ++ "b") ("a" ++ NL ++ "b" ++ NL ++ "c" ++ NL ++ "d") 0 = None
  /\ compare_logs ("a" ++ NL ++ "b") ("a" ++ NL ++ "b" ++ NL ++ "c" ++ NL ++ "d") 1 = None
  /\ compare_logs ("a" ++ NL ++ "b" ++ NL ++ "c" ++ NL ++ "d") ("a" ++ NL ++ "b") 1 = None.
Proof.
  split; [|split].
  - apply (compare_logs_ignores_extra_lines
             ("a" ++ NL ++ "b") ("a" ++ NL ++ "b" ++ NL ++ "c" ++ NL ++ "d")
             ["c"; "d"] 0).
    reflexivity.
  - apply (compare_logs_ignores_extra_lines
             ("a" ++ NL ++ "b") ("a" ++ NL ++ "b" ++ NL ++ "c" ++ NL ++ "d")
             ["c"; "d"] 1).
    reflexivity.
  - apply (compare_logs_ignores_extra_lines
             ("a" ++ NL ++ "b") ("a" ++ NL ++ "b" ++ NL ++ "c" ++ NL ++ "d")
             ["c"; "d"] 1).
    reflexivity.
Defined.

End LogComparator.

(** * Properties of the search for the byte offset *)

Section ByteOffset.

Import Re.

Lemma append_assoc (a b c : string) : (a ++ b) ++ c = a ++ b ++ c.
Proof. induction a as [|x a IH]; simpl; [reflexivity | now rewrite IH]. Qed.

Lemma app_nil_r_string (a : string) : a ++ "" = a.
Proof. induction a as [|x a IH]; simpl; [reflexivity | now rewrite IH]. Qed.

Lemma append_length (a b : string) :
  String.length (a ++ b) = (String.length a + String.length b)%nat.
Proof. induction a as [|x a IH]; simpl; [reflexivity | now rewrite IH]. Qed.

Lemma byte_re_compiled : re_compile "byte (\d+)," = byte_re.
Proof. reflexivity. Qed.

Lemma match_lit (c : ascii) (r : regex) (bos : bool) (st : caps) (s : string)
    (gs : list string) :
  match_items (One (Lit c) :: r) bos st s = Some gs
  <-> exists s', s = String c s' /\ match_items r false (push c st) s' = Some gs.
Proof.
  cbn [match_items atom_matches]. destruct s as [|d s].
  - split; [discriminate | intros (s' & E & _); discriminate].
  - destruct (Ascii.eqb_spec d c) as [->|Hne].
    + split; [intros H; now exists s | intros (s' & E & H)].
      now injection E as <-.
    + split; [discriminate | intros (s' & E & _)].
      injection E as -> _. contradiction.
Qed.

(** The continuation of [\d+] in [byte_re]: the group is closed and a comma
    must follow. *)
Lemma comma_step (bos : bool) (st : caps) (g : string) (s : string)
    (gs : list string) :
  opened st = Some g ->
  match_items [GClose; One (Lit ",")] bos st s = Some gs
  <-> exists post, s = String "," post /\ gs = (closed st ++ [g])%list.
Proof.
  intros Hg.
  change (match_items [GClose; One (Lit ",")] bos st s)
    with (match_items [One (Lit ",")] bos (close_group st) s).
  rewrite match_lit.
  unfold close_group. rewrite Hg. cbn.
  split.
  - intros (s' & -> & H). exists s'. split; [reflexivity | congruence].
  - intros (post & -> & ->). now exists post.
Qed.

Lemma star_digits (s : string) :
  forall (bos : bool) (st : caps) (g : string) (gs : list string),
    opened st = Some g ->
    star (match_items [GClose; One (Lit ",")]) Digit bos st s = Some gs
    <-> exists ds post,
          s = ds ++ "," ++ post /\ all_digits ds = true
          /\ gs = (closed st ++ [(g ++ ds)%string])%list.
Proof.
  induction s as [|c s IH]; intros bos st g gs Hg.
  - cbn [star]. rewrite (comma_step bos st g "" gs Hg). split.
    + intros (post & E & _). discriminate.
    + intros ([|d ds] & post & E & _); discriminate.
  - cbn [star atom_matches].
    assert (Hpush : opened (push c st) = Some (Py.snoc g c)).
    { unfold push; cbn. now rewrite Hg. }
    destruct (Py.is_digit c) eqn:Hc.
    + split.
      * intros H.
        destruct (star (match_items [GClose; One (Lit ",")]) Digit false (push c st) s)
          as [gs'|] eqn:E.
        -- injection H as <-.
           apply (IH false (push c st) (Py.snoc g c) gs' Hpush) in E.
           destruct E as (ds & post & -> & Hds & ->).
           exists (String c ds), post. split; [reflexivity|].
           split; [cbn; now rewrite Hc|].
           cbn. unfold Py.snoc. now rewrite append_assoc.
        -- apply (comma_step bos st g (String c s) gs Hg) in H.
           destruct H as (post & E' & _). injection E' as -> _. discriminate.
      * intros (ds & post & E & Hds & ->). destruct ds as [|d ds].
        -- injection E as -> _. discriminate.
        -- injection E as <- ->.
           assert (E : star (match_items [GClose; One (Lit ",")]) Digit false
                            (push c st) (ds ++ "," ++ post)
                       = Some (closed (push c st) ++ [(Py.snoc g c ++ ds)%string])%list).
           { apply (IH false (push c st) (Py.snoc g c) _ Hpush).
             exists ds, post. split; [reflexivity|]. split; [|reflexivity].
             cbn in Hds. now apply andb_true_iff in Hds. }
           change ("," ++ post) with (String "," post) in E.
           rewrite E. cbn. unfold Py.snoc. now rewrite append_assoc.
    + rewrite (comma_step bos st g (String c s) gs Hg). split.
      * intros (post & E & ->). injection E as -> ->.
        exists "", post. split; [reflexivity|]. split; [reflexivity|].
        now rewrite app_nil_r_string.
      * intros (ds & post & E & Hds & ->). destruct ds as [|d ds].
        -- injection E as -> ->. exists post. split; [reflexivity|].
           now rewrite app_nil_r_string.
        -- injection E as <- _. cbn in Hds. rewrite Hc in Hds. discriminate.
Qed.

Lemma match_group_plus (a : atom) (r : regex) (bos : bool) (st : caps)
    (t : string) :
  match_items (GOpen :: Plus a :: r) bos st t
  = match t with
    | String c t' =>
        if atom_matches a c
        then star (match_items r) a false (push c (open_group st)) t'
        else None
    | "" => None
    end.
Proof. reflexivity. Qed.

(** A match of [byte_re] at the beginning of [t]. *)
Lemma match_byte_re (bos : bool) (t : string) (gs : list string) :
  match_items byte_re bos no_caps t = Some gs
  <-> exists ds post,
        t = "byte " ++ ds ++ "," ++ post /\ ds <> "" /\ all_digits ds = true
        /\ gs = [ds].
Proof.
  unfold byte_re. do 5 setoid_rewrite match_lit.
  change (push " " (push "e" (push "t" (push "y" (push "b" no_caps)))))
    with no_caps.
  split.
  - intros (t1 & -> & t2 & -> & t3 & -> & t4 & -> & t5 & -> & H).
    rewrite match_group_plus in H.
    destruct t5 as [|d t6]; [discriminate|].
    cbn [atom_matches] in H.
    destruct (Py.is_digit d) eqn:Hd; [|discriminate].
    apply (star_digits t6 false (push d (open_group no_caps)) (String d "") gs
             eq_refl) in H.
    destruct H as (ds & post & -> & Hds & ->).
    exists (String d ds), post. split; [reflexivity|].
    split; [discriminate|]. split; [cbn; now rewrite Hd | reflexivity].
  - intros (ds & post & -> & Hne & Hds & ->).
    destruct ds as [|d ds]; [contradiction|].
    cbn in Hds. apply andb_true_iff in Hds. destruct Hds as [Hd Hds].
    do 5 (eexists; split; [reflexivity|]).
    rewrite match_group_plus. cbn [append atom_matches]. rewrite Hd.
    apply (star_digits (ds ++ "," ++ post) false (push d (open_group no_caps))
             (String d "") [String d ds] eq_refl).
    exists ds, post. now repeat split.
Qed.

Lemma match_byte_re_bos (bos : bool) (t : string) :
  match_items byte_re bos no_caps t = match_items byte_re false no_caps t.
Proof. destruct t; reflexivity. Qed.

(** The search returns the match at the leftmost position that has one. *)
Lemma search_byte_re_some (s : string) :
  forall (bos : bool) (gs : list string),
    search_from byte_re bos s = Some gs ->
    exists pre t,
      s = pre ++ t /\ match_items byte_re false no_caps t = Some gs
      /\ forall pre' t',
           s = pre' ++ t' -> (String.length pre' < String.length pre)%nat ->
           match_items byte_re false no_caps t' = None.
Proof.
  induction s as [|c s IH]; intros bos gs; cbn [search_from];
    rewrite match_byte_re_bos.
  - destruct (match_items byte_re false no_caps "") as [g|] eqn:E; [|discriminate].
    intros H. injection H as <-. exists "", "".
    split; [reflexivity|]. split; [exact E|]. intros pre' t' _ Hlt. inversion Hlt.
  - destruct (match_items byte_re false no_caps (String c s)) as [g|] eqn:E.
    + intros H. injection H as <-. exists "", (String c s).
      split; [reflexivity|]. split; [exact E|]. intros pre' t' _ Hlt. inversion Hlt.
    + intros H. apply IH in H. destruct H as (pre & t & -> & Hm & Hleft).
      exists (String c pre), t. split; [reflexivity|]. split; [exact Hm|].
      intros [|d pre'] t' Heq Hlt.
      * cbn in Heq. subst t'. exact E.
      * cbn in Heq. injection Heq as -> Heq. apply (Hleft pre' t' Heq).
        cbn in Hlt. lia.
Qed.

Lemma search_byte_re_none (s : string) :
  forall (bos : bool),
    search_from byte_re bos s = None ->
    forall pre t, s = pre ++ t -> match_items byte_re false no_caps t = None.
Proof.
  induction s as [|c s IH]; intros bos; cbn [search_from];
    rewrite match_byte_re_bos.
  - destruct (match_items byte_re false no_caps "") as [g|] eqn:E; [discriminate|].
    intros _ [|d pre] t Heq; [|discriminate].
    cbn in Heq. now subst t.
  - destruct (match_items byte_re false no_caps (String c s)) as [g|] eqn:E;
      [discriminate|].
    intros H [|d pre] t Heq.
    + cbn in Heq. now subst t.
    + cbn in Heq. injection Heq as -> Heq. exact (IH false H pre t Heq).
Qed.

Lemma byte_pattern_matches (pre ds post s : string) :
  byte_pattern_at pre ds post s ->
  s = pre ++ ("byte " ++ ds ++ "," ++ post)
  /\ match_items byte_re false no_caps ("byte " ++ ds ++ "," ++ post) = Some [ds].
Proof.
  intros (-> & Hne & Hds). split; [reflexivity|].
  apply match_byte_re. exists ds, post. now repeat split.
Qed.

(** The result of [parse_cmp_offset] on every string. *)
Lemma parse_cmp_offset_cases (s : string) :
  match parse_cmp_offset s with
  | Some n => exists ds, first_byte_pattern s ds /\ n = Py.int ds
  | None => ~ has_byte_pattern s
  end.
Proof.
  unfold parse_cmp_offset, search. rewrite byte_re_compiled.
  destruct (search_from byte_re true s) as [gs|] eqn:E.
  - apply search_byte_re_some in E. destruct E as (pre & t & -> & Hm & Hleft).
    apply match_byte_re in Hm. destruct Hm as (ds & post & -> & Hne & Hds & ->).
    cbn [nth_error option_map]. exists ds. split; [|reflexivity].
    exists pre, post. split; [now repeat split|].
    intros pre' ds' post' Hp.
    apply byte_pattern_matches in Hp. destruct Hp as [Heq Hm'].
    destruct (Nat.le_gt_cases (String.length pre) (String.length pre')) as [Hle|Hlt];
      [exact Hle|].
    rewrite (Hleft pre' _ Heq Hlt) in Hm'. discriminate.
  - intros (pre & ds & post & Hp).
    apply byte_pattern_matches in Hp. destruct Hp as [Heq Hm].
    rewrite (search_byte_re_none s true E pre _ Heq) in Hm. discriminate.
Qed.

End ByteOffset.

(** * Properties of [main] *)

Section Coordinator.

Variable cfg : config.
Variable w : world.

Lemma fatal_b_spec : fatal_b cfg w = true <-> fatal_mismatch cfg w.
Proof.
  unfold fatal_b, fatal_mismatch.
  rewrite orb_true_iff, andb_true_iff, orb_true_iff, negb_true_iff,
    Z.eqb_neq, !truthy_true.
  reflexivity.
Qed.

Lemma fatal_b_false : ~ fatal_mismatch cfg w -> fatal_b cfg w = false.
Proof.
  intros H. destruct (fatal_b cfg w) eqn:E; [|reflexivity].
  now apply fatal_b_spec in E.
Qed.

(** The binary named by [-o], in the arguments of both runs. *)
Lemma item_after_o_base (o : string) :
  ns_o (parsed_args w) = Some o -> o <> "" ->
  item_after "-o" (base_args w) = ret o.
Proof.
  intros Ho Hne. unfold base_args, vars. rewrite Ho.
  cbn [preprocess_args]. apply String.eqb_neq in Hne. rewrite Hne.
  reflexivity.
Qed.

Lemma item_after_o_cmp (o : string) :
  ns_o (parsed_args w) = Some o -> o <> "" ->
  item_after "-o" (cmp_args w) = ret (cmp_binary_of w o).
Proof.
  intros Ho Hne. unfold cmp_args, vars. rewrite Ho.
  cbn [preprocess_args]. apply String.eqb_neq in Hne. rewrite Hne.
  reflexivity.
Qed.

(** Starting a child always succeeds. *)
Lemma run_bolt_eq (n : nat) (bolt_path : string) (bolt_args : list string) :
  run_bolt cfg w n bolt_path bolt_args
  = (spawn_events cfg (bolt_cmd cfg w bolt_path bolt_args),
     Ret {| h_cmd := bolt_cmd cfg w bolt_path bolt_args;
            h_proc := popen w n (bolt_cmd cfg w bolt_path bolt_args) |}).
Proof.
  unfold run_bolt, run_cmd, spawn_events. destruct (VERBOSE cfg); reflexivity.
Qed.

Lemma report_real_time_eq (binary main_err cmp_err t1 t2 : string) :
  get_real_from_stderr main_err = Some t1 ->
  get_real_from_stderr cmp_err = Some t2 ->
  report_real_time cfg binary main_err cmp_err
  = ([WriteTo (TIMING_FILE cfg) ModeA (timing_record binary t1 t2)], Ret tt).
Proof. intros H1 H2. unfold report_real_time. now rewrite H1, H2. Qed.

(** [compare_headers] never reports a mismatch: it calls [compare_logs] with
    [skip_end = 0]. *)
Lemma compare_headers_eq (lhs rhs : string) :
  compare_headers w lhs rhs
  = if returncode (readelf_tool w lhs) =? 0 then
      if returncode (readelf_tool w rhs) =? 0 then
        ([Run ["readelf"; "-We"; lhs]; Run ["readelf"; "-We"; rhs]], Ret None)
      else
        ([Run ["readelf"; "-We"; lhs]; Run ["readelf"; "-We"; rhs]],
         Stop (Uncaught CalledProcessError))
    else ([Run ["readelf"; "-We"; lhs]], Stop (Uncaught CalledProcessError)).
Proof.
  unfold compare_headers, readelf. cbn [bind emit].
  destruct (returncode (readelf_tool w lhs) =? 0);
    destruct (returncode (readelf_tool w rhs) =? 0); cbn;
    now rewrite ?compare_logs_0.
Qed.

Ltac run :=
  cbn [bind ret emit when exit raise orelse write_to wait
       h_cmd h_proc fst snd events ending app negb truthy].

Ltac start :=
  unfold main; rewrite !run_bolt_eq;
  fold (base_args w); fold (cmp_args w);
  fold (base_cmd cfg w); fold (cmp_cmd cfg w);
  unfold launch_events;
  destruct (RUN_SEQUENTIALLY cfg) eqn:Eseq; run;
  fold (main_bolt cfg w); fold (cmp_bolt cfg w);
  fold (out_mismatch cfg w); fold (err_mismatch cfg w); fold (fatal_b cfg w).

Lemma item_after_no_o :
  ns_o (parsed_args w) = None \/ ns_o (parsed_args w) = Some "" ->
  exists e, (e = ValueError \/ e = IndexError)
            /\ item_after "-o" (base_args w) = raise e.
Proof.
  intros Ho.
  assert (E : base_args w
              = prepend_dash (preprocess_args [("w", ns_w (parsed_args w))])).
  { unfold base_args, vars. now destruct Ho as [-> | ->]. }
  rewrite E. destruct (ns_w (parsed_args w)) as [v|]; cbn [preprocess_args].
  - destruct (String.eqb_spec v "") as [->|Hv].
    + exists ValueError. split; [now left | reflexivity].
    + cbn [prepend_dash]. unfold item_after. cbn [Py.index append].
      change (("-w" =? "-o")%string) with false. cbv iota.
      destruct (String.eqb_spec v "-o") as [->|Hv'].
      * exists IndexError. split; [now right | reflexivity].
      * exists ValueError. split; [now left | reflexivity].
  - exists ValueError. split; [now left | reflexivity].
Qed.

Lemma report_real_time_none (binary main_err cmp_err : string) :
  get_real_from_stderr main_err = None \/ get_real_from_stderr cmp_err = None ->
  report_real_time cfg binary main_err cmp_err = raise IndexError.
Proof.
  intros H. unfold report_real_time.
  destruct (get_real_from_stderr main_err); [|reflexivity].
  destruct H as [H | ->]; [discriminate | reflexivity].
Qed.

Lemma bytes_eqb_spec (a b : list Byte.byte) : reflect (a = b) (bytes_eqb a b).
Proof.
  unfold bytes_eqb. destruct (list_eq_dec Byte.byte_eq_dec a b); now constructor.
Qed.

Lemma main_run_eq (t t' : list event) (r : result unit) :
  main_run cfg w (t', r) -> t = t' -> main_run cfg w (t, r).
Proof. now intros H ->. Qed.

(** The run up to the comparison of the binaries, when the logs pass and
    the timing record can be written. *)
Ltac to_binaries Hf Ho Hne H1 H2 :=
  start;
  rewrite (fatal_b_false Hf); run;
  rewrite (item_after_o_base _ Ho Hne), (item_after_o_cmp _ Ho Hne); run;
  rewrite (report_real_time_eq _ _ _ _ _ H1 H2); run.

Ltac trace_eq :=
  cbn [app]; repeat (rewrite <- !app_assoc; cbn [app]); reflexivity.

(** C8. When the logs pass and the binaries are identical or not compared,
    [main] removes the temporary folder unless [KEEP_TMP] is set, prints the
    standard output of the base run to the standard output and its standard
    error to the standard error, and exits with the return code of the base
    run. The events of the whole run are given in order. *)
Theorem success_cleans_up_and_exits_with_base_code (o t1 t2 : string) :
  ~ fatal_mismatch cfg w ->
  ns_o (parsed_args w) = Some o -> o <> "" ->
  get_real_from_stderr (stderr (main_bolt cfg w)) = Some t1 ->
  get_real_from_stderr (stderr (cmp_bolt cfg w)) = Some t2 ->
  ~ binaries_differ cfg w o ->
  main cfg w
  = ((launch_events cfg w
      ++ [WriteTo (TIMING_FILE cfg) ModeA (timing_record o t1 t2)]
      ++ (if SKIP_BINARY_CMP cfg then [] else [Run ["cmp"; o; cmp_binary_of w o]])
      ++ (if KEEP_TMP cfg then [] else [Rmtree (mkdtemp w)])
      ++ [Print Stdout (stdout (main_bolt cfg w));
          Print Stderr (stderr (main_bolt cfg w))])%list,
     Stop (SystemExit (ExitCode (returncode (main_bolt cfg w))))).
Proof.
  intros Hf Ho Hne H1 H2 Hb.
  assert (Hcmp : SKIP_BINARY_CMP cfg = true
                 \/ SKIP_BINARY_CMP cfg = false
                    /\ (returncode (cmp_tool w o (cmp_binary_of w o)) =? 0) = true).
  { destruct (SKIP_BINARY_CMP cfg) eqn:Es; [now left | right].
    split; [reflexivity|]. apply Z.eqb_eq.
    destruct (Z.eq_dec (returncode (cmp_tool w o (cmp_binary_of w o))) 0) as [E|E];
      [exact E|].
    exfalso. apply Hb. now split. }
  to_binaries Hf Ho Hne H1 H2;
    (destruct Hcmp as [-> | [-> ->]]; destruct (KEEP_TMP cfg); run; f_equal; trace_eq).
Qed.

(** Rewrites the trace of a started run as the launch events followed by
    the rest. *)
Ltac launch_eq :=
  unfold launch_events;
  match goal with H : RUN_SEQUENTIALLY _ = _ |- _ => rewrite H end;
  trace_eq.

(** Every run of [main] is one of the runs of [main_run]. *)
Lemma main_run_spec : main_run cfg w (main cfg w).
Proof.
  destruct (fatal_b cfg w) eqn:Ef.
  { assert (Hf : fatal_mismatch cfg w) by now apply fatal_b_spec.
    start; rewrite Ef; run;
      (eapply main_run_eq; [apply (run_fatal _ _ Hf) | launch_eq]). }
  assert (Hf : ~ fatal_mismatch cfg w).
  { intros H. apply fatal_b_spec in H. congruence. }
  assert (Hnone : ns_o (parsed_args w) = None \/ ns_o (parsed_args w) = Some ""
                  -> main_run cfg w (main cfg w)).
  { intros Ho. destruct (item_after_no_o Ho) as (e & He & E).
    start; rewrite Ef; run; rewrite E; run;
      (eapply main_run_eq; [apply (run_no_output _ _ _ Hf Ho He) | launch_eq]). }
  destruct (ns_o (parsed_args w)) as [o|] eqn:Ho; [|now apply Hnone; left].
  destruct (String.eqb_spec o "") as [->|Hne]; [now apply Hnone; right|].
  clear Hnone.
  destruct (get_real_from_stderr (stderr (main_bolt cfg w))) as [t1|] eqn:H1.
  2: { start; rewrite Ef; run;
         rewrite (item_after_o_base _ Ho Hne), (item_after_o_cmp _ Ho Hne); run;
         rewrite (report_real_time_none _ _ _ (or_introl H1)); run;
         (eapply main_run_eq;
          [apply (run_no_timing _ _ _ Hf Ho Hne (or_introl H1)) | launch_eq]). }
  destruct (get_real_from_stderr (stderr (cmp_bolt cfg w))) as [t2|] eqn:H2.
  2: { start; rewrite Ef; run;
         rewrite (item_after_o_base _ Ho Hne), (item_after_o_cmp _ Ho Hne); run;
         rewrite (report_real_time_none _ _ _ (or_intror H2)); run;
         (eapply main_run_eq;
          [apply (run_no_timing _ _ _ Hf Ho Hne (or_intror H2)) | launch_eq]). }
  assert (Hbin : forall t r,
             binary_run cfg w o t r ->
             main_run cfg w
               ((launch_events cfg w
                 ++ WriteTo (TIMING_FILE cfg) ModeA (timing_record o t1 t2) :: t)%list,
                r)).
  { intros t r. now apply run_binaries. }
  destruct (SKIP_BINARY_CMP cfg) eqn:Es.
  { to_binaries Hf Ho Hne H1 H2; rewrite Es; run;
      destruct (KEEP_TMP cfg) eqn:Ek; run;
      (eapply main_run_eq;
       [apply Hbin, (bin_skipped _ _ _ Es)
       | unfold success_events; rewrite Ek; launch_eq]). }
  destruct (Z.eqb_spec (returncode (cmp_tool w o (cmp_binary_of w o))) 0)
    as [Ec|Ec].
  { to_binaries Hf Ho Hne H1 H2; rewrite Es; run;
      rewrite (proj2 (Z.eqb_eq _ _) Ec); run;
      destruct (KEEP_TMP cfg) eqn:Ek; run;
      (eapply main_run_eq;
       [apply Hbin, (bin_identical _ _ _ Es Ec)
       | unfold success_events; rewrite Ek; launch_eq]). }
  assert (Hd : binaries_differ cfg w o) by now split.
  destruct (file_bytes w o) as [f|] eqn:Ebytes.
  2: { to_binaries Hf Ho Hne H1 H2; rewrite Es; run;
         rewrite (proj2 (Z.eqb_neq _ _) Ec); run; rewrite Ebytes; run;
         (eapply main_run_eq; [apply Hbin, (bin_unreadable _ _ _ Hd Ebytes) | launch_eq]). }
  destruct (bytes_eqb_spec (firstn 4 f) ELF_MAGIC) as [Helf|Helf].
  2: { to_binaries Hf Ho Hne H1 H2; rewrite Es; run;
         rewrite (proj2 (Z.eqb_neq _ _) Ec); run; rewrite Ebytes; run;
         (destruct (bytes_eqb_spec (firstn 4 f) ELF_MAGIC) as [Helf'|_];
          [contradiction|]); run;
         (eapply main_run_eq; [apply Hbin, (bin_not_elf _ _ _ _ Hd Ebytes Helf) | launch_eq]). }
  assert (Hmagic : bytes_eqb (firstn 4 f) ELF_MAGIC = true).
  { now destruct (bytes_eqb_spec (firstn 4 f) ELF_MAGIC). }
  destruct (Z.eqb_spec (returncode (readelf_tool w o)) 0) as [El|El].
  2: { to_binaries Hf Ho Hne H1 H2; rewrite Es; run;
         rewrite (proj2 (Z.eqb_neq _ _) Ec); run; rewrite Ebytes; run;
         rewrite Hmagic; run; rewrite compare_headers_eq;
         rewrite (proj2 (Z.eqb_neq _ _) El); run;
         (eapply main_run_eq;
          [apply Hbin, (bin_readelf_fails_lhs _ _ _ _ Hd Ebytes Helf El)
          | launch_eq]). }
  destruct (Z.eqb_spec (returncode (readelf_tool w (cmp_binary_of w o))) 0)
    as [Er|Er].
  2: { to_binaries Hf Ho Hne H1 H2; rewrite Es; run;
         rewrite (proj2 (Z.eqb_neq _ _) Ec); run; rewrite Ebytes; run;
         rewrite Hmagic; run; rewrite compare_headers_eq;
         rewrite (proj2 (Z.eqb_eq _ _) El), (proj2 (Z.eqb_neq _ _) Er); run;
         (eapply main_run_eq;
          [apply Hbin, (bin_readelf_fails_rhs _ _ _ _ Hd Ebytes Helf El Er)
          | launch_eq]). }
  destruct (parse_cmp_offset (stdout (cmp_tool w o (cmp_binary_of w o))))
    as [n|] eqn:Ep.
  - to_binaries Hf Ho Hne H1 H2; rewrite Es; run;
      rewrite (proj2 (Z.eqb_neq _ _) Ec); run; rewrite Ebytes; run;
      rewrite Hmagic; run; rewrite compare_headers_eq;
      rewrite (proj2 (Z.eqb_eq _ _) El), (proj2 (Z.eqb_eq _ _) Er); run;
      rewrite Ep; run;
      (eapply main_run_eq;
       [apply Hbin, (bin_offset _ _ _ _ _ Hd Ebytes Helf El Er Ep) | launch_eq]).
  - to_binaries Hf Ho Hne H1 H2; rewrite Es; run;
      rewrite (proj2 (Z.eqb_neq _ _) Ec); run; rewrite Ebytes; run;
      rewrite Hmagic; run; rewrite compare_headers_eq;
      rewrite (proj2 (Z.eqb_eq _ _) El), (proj2 (Z.eqb_eq _ _) Er); run;
      rewrite Ep; run;
      (eapply main_run_eq;
       [apply Hbin, (bin_no_offset _ _ _ _ Hd Ebytes Helf El Er Ep) | launch_eq]).
Qed.

Ltac launch_kind :=
  repeat match goal with
         | H : _ \/ _ |- _ => destruct H as [H|H]
         | H : False |- _ => contradiction
         | H : _ = ?e |- _ => subst e
         end;
  eexists;
  first [left; reflexivity | right; left; reflexivity | right; right; reflexivity].

(** Launching performs no write, no removal and runs no other tool. *)
Lemma launch_events_kinds (e : event) :
  In e (launch_events cfg w) ->
  exists cmd, e = PrintCmd cmd \/ e = Popen cmd \/ e = Communicate cmd.
Proof.
  unfold launch_events, spawn_events.
  destruct (VERBOSE cfg), (RUN_SEQUENTIALLY cfg); cbn [app In]; intros H;
    launch_kind.
Qed.

Lemma launch_events_no_write : filter is_write (launch_events cfg w) = [].
Proof.
  assert (Hs : forall cmd, filter is_write (spawn_events cfg cmd) = []).
  { intros cmd. unfold spawn_events. destruct (VERBOSE cfg); reflexivity. }
  unfold launch_events. destruct (RUN_SEQUENTIALLY cfg);
    rewrite ?filter_app, ?Hs; reflexivity.
Qed.

Lemma binary_run_no_write (o : string) (t : list event) (r : result unit) :
  binary_run cfg w o t r -> filter is_write t = [].
Proof.
  intros H. destruct H; try reflexivity;
    unfold success_events; destruct (KEEP_TMP cfg); reflexivity.
Qed.

Lemma file_after_app (name old : string) (a b : list event) :
  file_after name old (a ++ b) = file_after name (file_after name old a) b.
Proof.
  revert old. induction a as [|e a IH]; intros old; [reflexivity|].
  destruct e; cbn [app file_after]; try apply IH.
  destruct (String.eqb filename name); apply IH.
Qed.

Lemma file_after_no_write (name old : string) (t : list event) :
  filter is_write t = [] -> file_after name old t = old.
Proof.
  induction t as [|e t IH]; [reflexivity|].
  destruct e; cbn [filter is_write file_after]; try exact IH. discriminate.
Qed.

(** C3. After both runs are awaited, [main] stops with the message
    ["exitcode or logs mismatch"] exactly when the return codes of the two
    runs differ, or [COMPARE_OUTPUT] is set and one of the two calls of
    [compare_logs] returns a mismatch. Different return codes are fatal
    whatever [COMPARE_OUTPUT] is; a mismatch of the logs is fatal only when
    it is set. When [main] stops there, it has printed the temporary folder
    and written the four logs and the summary into it, the exit status is 1
    and the folder is not removed. *)
Theorem log_stage_fatal_iff :
  (fatal_mismatch cfg w
   <-> ending (main cfg w)
       = Stop (SystemExit (ExitMsg "exitcode or logs mismatch")))
  /\ (fatal_mismatch cfg w ->
      main cfg w
      = ((launch_events cfg w ++ postmortem_events cfg w)%list,
         Stop (SystemExit (ExitMsg "exitcode or logs mismatch")))
      /\ exit_status_of (main cfg w) = 1
      /\ ~ In (Rmtree (mkdtemp w)) (events (main cfg w)))
  /\ (returncode (main_bolt cfg w) <> returncode (cmp_bolt cfg w) ->
      ending (main cfg w)
      = Stop (SystemExit (ExitMsg "exitcode or logs mismatch")))
  /\ (returncode (main_bolt cfg w) = returncode (cmp_bolt cfg w) ->
      COMPARE_OUTPUT cfg = false ->
      ending (main cfg w)
      <> Stop (SystemExit (ExitMsg "exitcode or logs mismatch"))).
Proof.
  assert (Hmain : fatal_mismatch cfg w ->
                  main cfg w
                  = ((launch_events cfg w ++ postmortem_events cfg w)%list,
                     Stop (SystemExit (ExitMsg "exitcode or logs mismatch")))).
  { intros Hf. pose proof main_run_spec as R.
    remember (main cfg w) as m eqn:Em.
    destruct R; try contradiction. reflexivity. }
  assert (Hiff : fatal_mismatch cfg w
                 <-> ending (main cfg w)
                     = Stop (SystemExit (ExitMsg "exitcode or logs mismatch"))).
  { split.
    - intros Hf. now rewrite (Hmain Hf).
    - intros Hend. pose proof main_run_spec as R.
      remember (main cfg w) as m eqn:Em.
      destruct R as [Hf | e Hf Ho He | o Hf Ho Hne Ht | o t1 t2 t r Hf Ho Hne H1 H2 Hb];
        [exact Hf | discriminate | discriminate |].
      cbn in Hend. subst r. inversion Hb. }
  split; [exact Hiff|]. split; [|split].
  - intros Hf. split; [exact (Hmain Hf)|].
    unfold exit_status_of. rewrite (Hmain Hf). split; [reflexivity|].
    cbn [events fst]. intros Hin. apply in_app_or in Hin. destruct Hin as [Hin|Hin].
    + apply launch_events_kinds in Hin.
      destruct Hin as (cmd & [H | [H | H]]); discriminate.
    + cbn in Hin. decompose [or] Hin; try discriminate; contradiction.
  - intros Hrc. apply Hiff. now left.
  - intros Hrc Hco Hend. apply Hiff in Hend.
    destruct Hend as [H | [H _]]; [contradiction | congruence].
Qed.

(** C7. When the two output files differ and the output of the base run
    does not begin with the four bytes of the ELF magic, [main] stops with
    the message ["output mismatch"] right after it has read the file: it
    does not run [readelf] and prints no byte offset. *)
Theorem non_elf_output_mismatch (o t1 t2 : string) (f : list Byte.byte) :
  ~ fatal_mismatch cfg w ->
  ns_o (parsed_args w) = Some o -> o <> "" ->
  get_real_from_stderr (stderr (main_bolt cfg w)) = Some t1 ->
  get_real_from_stderr (stderr (cmp_bolt cfg w)) = Some t2 ->
  binaries_differ cfg w o ->
  file_bytes w o = Some f ->
  firstn 4 f <> ELF_MAGIC ->
  main cfg w
  = ((launch_events cfg w
      ++ [WriteTo (TIMING_FILE cfg) ModeA (timing_record o t1 t2);
          Run ["cmp"; o; cmp_binary_of w o];
          OpenRb o])%list,
     Stop (SystemExit (ExitMsg "output mismatch")))
  /\ (forall binary, ~ In (Run ["readelf"; "-We"; binary]) (events (main cfg w)))
  /\ (forall n, ~ In (PrintInt n) (events (main cfg w)))
  /\ (forall txt, ~ In (Print Stdout txt) (events (main cfg w))).
Proof.
  intros Hf Ho Hne H1 H2 [Es Ec] Ebytes Helf.
  assert (Hmain : main cfg w
    = ((launch_events cfg w
        ++ [WriteTo (TIMING_FILE cfg) ModeA (timing_record o t1 t2);
            Run ["cmp"; o; cmp_binary_of w o];
            OpenRb o])%list,
       Stop (SystemExit (ExitMsg "output mismatch")))).
  { to_binaries Hf Ho Hne H1 H2; rewrite Es; run;
      rewrite (proj2 (Z.eqb_neq _ _) Ec); run; rewrite Ebytes; run;
      (destruct (bytes_eqb_spec (firstn 4 f) ELF_MAGIC) as [Helf'|_];
       [contradiction|]); run; f_equal; trace_eq. }
  split; [exact Hmain|]. rewrite Hmain. cbn [events fst].
  assert (Hin : forall e, In e (launch_events cfg w
                                ++ [WriteTo (TIMING_FILE cfg) ModeA (timing_record o t1 t2);
                                    Run ["cmp"; o; cmp_binary_of w o];
                                    OpenRb o])%list ->
                          (exists cmd, e = PrintCmd cmd \/ e = Popen cmd \/ e = Communicate cmd)
                          \/ e = WriteTo (TIMING_FILE cfg) ModeA (timing_record o t1 t2)
                          \/ e = Run ["cmp"; o; cmp_binary_of w o]
                          \/ e = OpenRb o).
  { intros e H. apply in_app_or in H. destruct H as [H|H].
    - left. now apply launch_events_kinds.
    - right. cbn in H. decompose [or] H; auto. contradiction. }
  repeat split; intros x H; apply Hin in H;
    destruct H as [(cmd & [H | [H | H]]) | [H | [H | H]]]; discriminate.
Qed.

(** The run through the comparison of the headers, for ELF outputs that
    differ and on which [readelf] succeeds: whatever [readelf] prints, [main]
    goes on to the byte offset. *)
Lemma elf_offset_path (o t1 t2 : string) (f : list Byte.byte) :
  ~ fatal_mismatch cfg w ->
  ns_o (parsed_args w) = Some o -> o <> "" ->
  get_real_from_stderr (stderr (main_bolt cfg w)) = Some t1 ->
  get_real_from_stderr (stderr (cmp_bolt cfg w)) = Some t2 ->
  binaries_differ cfg w o ->
  file_bytes w o = Some f -> is_elf f ->
  returncode (readelf_tool w o) = 0 ->
  returncode (readelf_tool w (cmp_binary_of w o)) = 0 ->
  main cfg w
  = ((launch_events cfg w
      ++ [WriteTo (TIMING_FILE cfg) ModeA (timing_record o t1 t2);
          Run ["cmp"; o; cmp_binary_of w o];
          OpenRb o;
          Run ["readelf"; "-We"; o];
          Run ["readelf"; "-We"; cmp_binary_of w o]]
      ++ match parse_cmp_offset (stdout (cmp_tool w o (cmp_binary_of w o))) with
         | Some n => [PrintInt n]
         | None => []
         end)%list,
     match parse_cmp_offset (stdout (cmp_tool w o (cmp_binary_of w o))) with
     | Some n => Stop (SystemExit (ExitMsg "binaries mismatch"))
     | None => Stop (Uncaught AttributeError)
     end).
Proof.
  intros Hf Ho Hne H1 H2 [Es Ec] Ebytes Helf El Er.
  assert (Hmagic : bytes_eqb (firstn 4 f) ELF_MAGIC = true).
  { now destruct (bytes_eqb_spec (firstn 4 f) ELF_MAGIC). }
  to_binaries Hf Ho Hne H1 H2; rewrite Es; run;
    rewrite (proj2 (Z.eqb_neq _ _) Ec); run; rewrite Ebytes; run;
    rewrite Hmagic; run; rewrite compare_headers_eq;
    rewrite (proj2 (Z.eqb_eq _ _) El), (proj2 (Z.eqb_eq _ _) Er); run;
    destruct (parse_cmp_offset (stdout (cmp_tool w o (cmp_binary_of w o))));
    run; f_equal; trace_eq.
Qed.

(** [main] never ends with ["headers mismatch"]. *)
Lemma never_headers_mismatch :
  ending (main cfg w) <> Stop (SystemExit (ExitMsg "headers mismatch")).
Proof.
  pose proof main_run_spec as R. remember (main cfg w) as m eqn:Em.
  destruct R as [Hf | e Hf Ho He | o Hf Ho Hne Ht | o t1 t2 t r Hf Ho Hne H1 H2 Hb];
    try discriminate.
  cbn. intros ->. inversion Hb.
Qed.

(** Without [-o], [main] never reaches its last line. *)
Lemma no_output_flag_no_success (n : Z) :
  ns_o (parsed_args w) = None ->
  ending (main cfg w) <> Stop (SystemExit (ExitCode n)).
Proof.
  intros Hnone. pose proof main_run_spec as R. remember (main cfg w) as m eqn:Em.
  destruct R as [Hf | e Hf Ho He | o Hf Ho Hne Ht | o t1 t2 t r Hf Ho Hne H1 H2 Hb];
    try discriminate; congruence.
Qed.

(** A reported byte offset was found in the output of [cmp]. *)
Lemma binaries_mismatch_has_offset :
  ending (main cfg w) = Stop (SystemExit (ExitMsg "binaries mismatch")) ->
  exists o n,
    ns_o (parsed_args w) = Some o
    /\ parse_cmp_offset (stdout (cmp_tool w o (cmp_binary_of w o))) = Some n
    /\ In (PrintInt n) (events (main cfg w)).
Proof.
  pose proof main_run_spec as R. remember (main cfg w) as m eqn:Em.
  destruct R as [Hf | e Hf Ho He | o Hf Ho Hne Ht | o t1 t2 t r Hf Ho Hne H1 H2 Hb];
    try discriminate.
  cbn. intros ->. inversion Hb; subst.
  exists o, n. split; [exact Ho|]. split; [assumption|].
  apply in_or_app. right. cbn. tauto.
Qed.

(** C5, as amended. When the logs pass, an output binary was named with
    [-o] and both standard errors have a last line, the only file [main]
    writes is the timing log, once and in append mode: the record is the path
    given with [-o], then the fields of the last line of the standard error
    of the base run, then those of the comparison run, all separated by a
    semicolon and a space and followed by a line feed. The timing log
    afterwards is its former content followed by the record. For the line
    [<elapsed> <memory>] of the timing harness the record is
    [binary; elapsed_base; mem_base; elapsed_cmp; mem_cmp]. *)
Theorem timing_record_appended_once (o l1 l2 : string) :
  ~ fatal_mismatch cfg w ->
  ns_o (parsed_args w) = Some o -> o <> "" ->
  Py.last_item (Py.splitlines (stderr (main_bolt cfg w))) = Some l1 ->
  Py.last_item (Py.splitlines (stderr (cmp_bolt cfg w))) = Some l2 ->
  filter is_write (events (main cfg w))
  = [WriteTo (TIMING_FILE cfg) ModeA
       (timing_record o (Py.join "; " (Py.split l1)) (Py.join "; " (Py.split l2)))]
  /\ (forall old,
         file_after (TIMING_FILE cfg) old (events (main cfg w))
         = old ++ timing_record o (Py.join "; " (Py.split l1))
                                  (Py.join "; " (Py.split l2)))
  /\ (forall e1 m1 e2 m2,
         Py.split l1 = [e1; m1] -> Py.split l2 = [e2; m2] ->
         timing_record o (Py.join "; " (Py.split l1)) (Py.join "; " (Py.split l2))
         = o ++ "; " ++ e1 ++ "; " ++ m1 ++ "; " ++ e2 ++ "; " ++ m2 ++ NL).
Proof.
  intros Hf Ho Hne Hl1 Hl2.
  assert (G1 : get_real_from_stderr (stderr (main_bolt cfg w))
               = Some (Py.join "; " (Py.split l1))).
  { unfold get_real_from_stderr. now rewrite Hl1. }
  assert (G2 : get_real_from_stderr (stderr (cmp_bolt cfg w))
               = Some (Py.join "; " (Py.split l2))).
  { unfold get_real_from_stderr. now rewrite Hl2. }
  pose proof main_run_spec as R. remember (main cfg w) as m eqn:Em.
  destruct R as [Hf' | e Hf' Ho' He | o' Hf' Ho' Hne' Ht
                | o' t1 t2 t r Hf' Ho' Hne' H1 H2 Hb].
  - contradiction.
  - destruct Ho' as [Ho'|Ho']; congruence.
  - destruct Ht as [Ht|Ht]; congruence.
  - assert (o' = o) by congruence. subst o'.
    assert (t1 = Py.join "; " (Py.split l1)) by congruence.
    assert (t2 = Py.join "; " (Py.split l2)) by congruence.
    subst t1 t2. pose proof (binary_run_no_write _ _ _ Hb) as Hnw.
    cbn [events fst]. split; [|split].
    + rewrite filter_app, launch_events_no_write.
      cbn [app filter is_write]. now rewrite Hnw.
    + intros old. rewrite file_after_app.
      rewrite (file_after_no_write _ _ _ launch_events_no_write).
      cbn [file_after]. rewrite String.eqb_refl.
      now apply file_after_no_write.
    + intros e1 m1 e2 m2 -> ->. unfold timing_record. cbn [Py.join].
      now rewrite !append_assoc.
Qed.

(** ** The runs of [main], case by case *)

Ltac run_cases :=
  let R := fresh "R" in
  let m := fresh "m" in
  let Em := fresh "Em" in
  pose proof main_run_spec as R;
  remember (main cfg w) as m eqn:Em;
  destruct R as [Hf | e Hf Ho He | o Hf Ho Hne Ht
                | o t1 t2 t r Hf Ho Hne H1 H2 Hb];
  [ | | | destruct Hb ];
  cbn [events ending fst snd].

Ltac in_launch H :=
  apply launch_events_kinds in H;
  destruct H as (? & [H|[H|H]]); discriminate H.

Ltac in_events H :=
  first
    [ apply in_app_or in H; destruct H as [H|H];
      [ in_launch H
      | unfold postmortem_events, success_events in H;
        repeat match type of H with
               | context [if ?b then _ else _] => destruct b
               end;
        cbn [In app] in H;
        repeat match type of H with
               | _ \/ _ => destruct H as [H|H]
               end;
        try discriminate H; try contradiction ]
    | in_launch H ].

Lemma not_fatal_inv :
  ~ fatal_mismatch cfg w ->
  returncode (main_bolt cfg w) = returncode (cmp_bolt cfg w)
  /\ (COMPARE_OUTPUT cfg = true ->
      out_mismatch cfg w = None /\ err_mismatch cfg w = None).
Proof.
  intros Hf. split.
  - destruct (Z.eq_dec (returncode (main_bolt cfg w)) (returncode (cmp_bolt cfg w)))
      as [E|E]; [exact E|].
    exfalso. apply Hf. now left.
  - intros Hc. split.
    + destruct (out_mismatch cfg w) eqn:E; [|reflexivity].
      exfalso. apply Hf. right. split; [exact Hc|]. left. congruence.
    + destruct (err_mismatch cfg w) eqn:E; [|reflexivity].
      exfalso. apply Hf. right. split; [exact Hc|]. right. congruence.
Qed.

(** X12. "Temp files are only cleaned on success": the temporary folder is
    removed exactly when [main] comes to its last line and [KEEP_TMP] is not
    set, and the standard error of the base run is passed on exactly when
    [main] comes to its last line. On every other ending the folder stays
    and nothing is written to the standard error stream by [print]. *)
Theorem cleanup_only_on_success :
  (forall p,
      In (Rmtree p) (events (main cfg w))
      <-> p = mkdtemp w /\ KEEP_TMP cfg = false
          /\ ending (main cfg w) = success_ending cfg w)
  /\ (forall txt,
         In (Print Stderr txt) (events (main cfg w))
         <-> txt = stderr (main_bolt cfg w)
             /\ ending (main cfg w) = success_ending cfg w).
Proof.
  unfold success_ending.
  split; intros x; run_cases;
    (split;
     [ intros Hin; in_events Hin;
       try (injection Hin as <-; repeat split; reflexivity)
     | intros Hin; decompose [and] Hin; clear Hin; subst x; try discriminate;
       apply in_or_app; right; unfold success_events;
       repeat match goal with
              | H : KEEP_TMP cfg = false |- _ => rewrite H
              | |- context [if ?b then _ else _] => destruct b
              end;
       cbn [In app]; tauto ]).
Qed.

(** X13. [main] ends with status 0 only after a full comparison: the two return
    codes are equal (and 0 modulo 256), an output binary was named, the
    binaries are identical or not compared, and the standard errors compare
    equal up to their last line when [COMPARE_OUTPUT] is set. *)
Theorem exit_status_zero_means_match :
  exit_status_of (main cfg w) = 0 ->
  ending (main cfg w) = success_ending cfg w
  /\ returncode (main_bolt cfg w) = returncode (cmp_bolt cfg w)
  /\ returncode (main_bolt cfg w) mod 256 = 0
  /\ (COMPARE_OUTPUT cfg = true -> err_mismatch cfg w = None)
  /\ exists o, ns_o (parsed_args w) = Some o /\ ~ binaries_differ cfg w o.
Proof.
  unfold exit_status_of, success_ending. run_cases; cbn [exit_status];
    try discriminate; intros Hz;
    destruct (not_fatal_inv Hf) as [Hrc Hlog];
    (split; [reflexivity|]; split; [exact Hrc|]; split; [exact Hz|];
     split; [intros Hc; now apply Hlog|]; exists o; split; [exact Ho|];
     intros [Hs Hd]; congruence).
Qed.

(** X14. With [SKIP_BINARY_CMP] no tool is run on the output files and no output
    file is opened. *)
Theorem skip_binary_cmp_runs_no_tool :
  SKIP_BINARY_CMP cfg = true ->
  (forall cmd, ~ In (Run cmd) (events (main cfg w)))
  /\ (forall filename, ~ In (OpenRb filename) (events (main cfg w))).
Proof.
  intros Hs.
  split; intros x Hin; revert Hin; run_cases;
    try match goal with Hd : binaries_differ _ _ _ |- _ => destruct Hd end;
    try congruence; intros Hin; in_events Hin.
Qed.


(** ** The output binary and the command lines *)

(** X8. The lookup [args[args.index('-o')+1]] of [main]: with a non-empty value
    for [-o] it finds that value, and its relocation for the comparison run,
    whatever [-w] is; without one (also for an empty value, which
    [preprocess_args] drops) it raises [ValueError], or [IndexError] when the
    value of [-w] is the text [-o]. *)
Theorem output_binary_lookup :
  (forall o, ns_o (parsed_args w) = Some o -> o <> "" ->
             item_after "-o" (base_args w) = ret o
             /\ item_after "-o" (cmp_args w) = ret (cmp_binary_of w o))
  /\ (ns_o (parsed_args w) = None \/ ns_o (parsed_args w) = Some "" ->
      item_after "-o" (base_args w)
      = raise (match ns_w (parsed_args w) with
               | Some v => if String.eqb v "-o" then IndexError else ValueError
               | None => ValueError
               end)).
Proof.
  split.
  - intros o Ho Hne. split; [now apply item_after_o_base | now apply item_after_o_cmp].
  - intros Ho.
    assert (E : base_args w
                = prepend_dash (preprocess_args [("w", ns_w (parsed_args w))])).
    { unfold base_args, vars. now destruct Ho as [-> | ->]. }
    rewrite E. destruct (ns_w (parsed_args w)) as [v|]; cbn [preprocess_args];
      [|reflexivity].
    destruct (String.eqb_spec v "") as [->|Hv]; [reflexivity|].
    cbn [prepend_dash]. unfold item_after. cbn [Py.index append].
    change (("-w" =? "-o")%string) with false. cbv iota.
    now destruct (String.eqb v "-o").
Qed.




(** ** The timing line and the artifacts of a failure *)

Lemma snoc_not_empty (s : string) (c : ascii) : Py.snoc s c <> "".
Proof. destruct s; discriminate. Qed.

Lemma splitlines_from_nil (s cur : string) :
  Py.splitlines_from cur s = [] <-> cur = "" /\ s = "".
Proof.
  revert cur. induction s as [|c s IH]; intros cur; cbn [Py.splitlines_from].
  - destruct cur; split; try discriminate; auto. intros [H _]. discriminate.
  - split; [|intros [_ H]; discriminate].
    destruct (Ascii.eqb c Py.CR).
    + destruct s as [|d s]; [discriminate|].
      destruct (Ascii.eqb d Py.LF); discriminate.
    + destruct (Py.is_linebreak c); [discriminate|].
      intros H. apply IH in H. destruct H as [H _].
      now apply snoc_not_empty in H.
Qed.

Lemma get_real_from_stderr_empty (log : string) :
  get_real_from_stderr log = None <-> log = "".
Proof.
  unfold get_real_from_stderr, Py.last_item, Py.splitlines.
  split.
  - intros H.
    destruct (rev (Py.splitlines_from "" log)) as [|x l] eqn:E; [|discriminate].
    apply (f_equal (@rev string)) in E. rewrite rev_involutive in E.
    cbn in E. now apply splitlines_from_nil in E.
  - intros ->. reflexivity.
Qed.

(** X15. [get_real_from_stderr] raises [IndexError] exactly on the empty log: a
    log with any character has a last line, and [report_real_time] raises
    exactly when one of the two logs is empty. *)
Theorem get_real_from_stderr_none_iff (binary main_err cmp_err : string) :
  (get_real_from_stderr main_err = None <-> main_err = "")
  /\ (report_real_time cfg binary main_err cmp_err = raise IndexError
      <-> main_err = "" \/ cmp_err = "").
Proof.
  split; [apply get_real_from_stderr_empty|].
  rewrite <- !get_real_from_stderr_empty. split.
  - intros H. unfold report_real_time in H.
    destruct (get_real_from_stderr main_err) as [t1|]; [right | now left].
    destruct (get_real_from_stderr cmp_err) as [t2|]; [discriminate | reflexivity].
  - apply report_real_time_none.
Qed.

(** X16. When the logs pass and [-o] was given but the standard error of a run is
    empty, [main] ends with the uncaught [IndexError] of
    [log.splitlines()[-1]] right after the comparison of the logs: nothing is
    written and no binary is compared. *)
Theorem empty_stderr_raises_index_error (binary : string) :
  ~ fatal_mismatch cfg w ->
  ns_o (parsed_args w) = Some binary -> binary <> "" ->
  stderr (main_bolt cfg w) = "" \/ stderr (cmp_bolt cfg w) = "" ->
  main cfg w = (launch_events cfg w, Stop (Uncaught IndexError)).
Proof.
  intros Hnf Hout Hnonempty Hempty.
  assert (Hnone : get_real_from_stderr (stderr (main_bolt cfg w)) = None
                  \/ get_real_from_stderr (stderr (cmp_bolt cfg w)) = None).
  { destruct Hempty as [E|E]; [left | right];
      now apply get_real_from_stderr_empty. }
  run_cases; try contradiction; try reflexivity;
    try (destruct Ho; congruence);
    destruct Hnone; congruence.
Qed.

Lemma eqb_app_l (pre a b : string) :
  String.eqb (pre ++ a) (pre ++ b) = String.eqb a b.
Proof.
  induction pre as [|c pre IH]; cbn [append String.eqb]; [reflexivity|].
  now rewrite Ascii.eqb_refl.
Qed.

Lemma path_join_relative (tmp : string) :
  exists pre, forall x, Py.startswith "/" x = false -> Py.path_join tmp x = pre ++ x.
Proof.
  destruct tmp as [|c tmp].
  - exists "". intros x Hx. unfold Py.path_join. now rewrite Hx.
  - destruct (Py.endswith_slash (String c tmp)) eqn:He.
    + exists (String c tmp). intros x Hx. unfold Py.path_join. now rewrite Hx, He.
    + exists (String c tmp ++ "/"). intros x Hx. unfold Py.path_join.
      rewrite Hx, He. now rewrite append_assoc.
Qed.

Lemma artifact_eqb (tmp a b : string) :
  Py.startswith "/" a = false -> Py.startswith "/" b = false ->
  String.eqb (Py.path_join tmp a) (Py.path_join tmp b) = String.eqb a b.
Proof.
  intros Ha Hb. destruct (path_join_relative tmp) as (pre & Hpre).
  rewrite (Hpre a Ha), (Hpre b Hb). apply eqb_app_l.
Qed.

(** X17. After a fatal comparison of the logs the temporary folder holds the
    standard output and the standard error of each run in a file of its own,
    whatever was there before, and [summary.txt] holds the mismatch of the
    standard errors (nothing when only the return codes differ; never a
    mismatch of the standard outputs, which are compared with
    [skip_end = 0]). The timing log is not appended to. *)
Theorem fatal_mismatch_artifacts (old : string) :
  fatal_mismatch cfg w ->
  let after name := file_after (Py.path_join (mkdtemp w) name) old
                      (events (main cfg w)) in
  after "main_bolt.stdout" = stdout (main_bolt cfg w)
  /\ after "cmp_bolt.stdout" = stdout (cmp_bolt cfg w)
  /\ after "main_bolt.stderr" = stderr (main_bolt cfg w)
  /\ after "cmp_bolt.stderr" = stderr (cmp_bolt cfg w)
  /\ after "summary.txt" = fmt_cmp (err_mismatch cfg w)
  /\ forall filename txt, ~ In (WriteTo filename ModeA txt) (events (main cfg w)).
Proof.
  intros Hfatal. cbv zeta.
  assert (Hev : events (main cfg w)
                = (launch_events cfg w ++ postmortem_events cfg w)%list).
  { run_cases; try contradiction. reflexivity. }
  rewrite Hev.
  assert (Hout : out_mismatch cfg w = None) by apply compare_logs_0.
  repeat split;
    try (rewrite file_after_app,
           (file_after_no_write _ _ _ launch_events_no_write);
         unfold postmortem_events; cbn [file_after];
         rewrite !artifact_eqb by reflexivity;
         cbn [String.eqb Ascii.eqb Bool.eqb]; cbv iota;
         rewrite ?Hout; reflexivity).
  intros filename txt Hin. in_events Hin.
Qed.

(** ** The comparison of the headers *)

(** X18. [compare_headers] raises [CalledProcessError] exactly when [readelf]
    fails on one of the two binaries, and then on the first alone when it
    fails there; otherwise it returns, and what it returns is never a
    mismatch. *)
Theorem compare_headers_errors (lhs rhs : string) :
  (ending (compare_headers w lhs rhs) = Stop (Uncaught CalledProcessError)
   <-> returncode (readelf_tool w lhs) <> 0
       \/ returncode (readelf_tool w rhs) <> 0)
  /\ (ending (compare_headers w lhs rhs) = Ret None
      <-> returncode (readelf_tool w lhs) = 0
          /\ returncode (readelf_tool w rhs) = 0)
  /\ (returncode (readelf_tool w lhs) <> 0 ->
      events (compare_headers w lhs rhs) = [Run ["readelf"; "-We"; lhs]])
  /\ (returncode (readelf_tool w lhs) = 0 ->
      events (compare_headers w lhs rhs)
      = [Run ["readelf"; "-We"; lhs]; Run ["readelf"; "-We"; rhs]]).
Proof.
  rewrite compare_headers_eq.
  destruct (Z.eqb_spec (returncode (readelf_tool w lhs)) 0) as [El|El];
    destruct (Z.eqb_spec (returncode (readelf_tool w rhs)) 0) as [Er|Er];
    cbn [ending events fst snd];
    repeat split; try discriminate; try tauto; try reflexivity;
    try (intros [? ?]; contradiction); intros; contradiction.
Qed.

End Coordinator.

(** * The sample invocations *)

Lemma sample_not_fatal (cfg : config) (w : world) :
  fatal_b cfg w = false -> ~ fatal_mismatch cfg w.
Proof. intros E H. apply fatal_b_spec in H. congruence. Qed.

Lemma success_cleans_up_and_exits_with_base_code_witness :
  main sample_cfg world_identical
  = ((launch_events sample_cfg world_identical
      ++ [WriteTo "timing.log" ModeA (timing_record "out/a.bolt" "1.00; 200" "2.00; 300")]
      ++ [Run ["cmp"; "out/a.bolt"; "/tmp/tmpx/a.bolt"]]
      ++ [Rmtree "/tmp/tmpx"]
      ++ [Print Stdout (stdout base_ok); Print Stderr (stderr base_ok)])%list,
     Stop (SystemExit (ExitCode 0))).
Proof.
  apply (success_cleans_up_and_exits_with_base_code sample_cfg world_identical
           "out/a.bolt" "1.00; 200" "2.00; 300").
  - apply sample_not_fatal. vm_compute. reflexivity.
  - reflexivity.
  - discriminate.
  - vm_compute. reflexivity.
  - vm_compute. reflexivity.
  - intros [_ H]. apply H. vm_compute. reflexivity.
Defined.

Lemma non_elf_output_mismatch_witness :
  ending (main sample_cfg world_not_elf)
  = Stop (SystemExit (ExitMsg "output mismatch"))
  /\ ~ In (Run ["readelf"; "-We"; "out/a.bolt"]) (events (main sample_cfg world_not_elf))
  /\ ~ In (PrintInt 25) (events (main sample_cfg world_not_elf)).
Proof.
  destruct (non_elf_output_mismatch sample_cfg world_not_elf
              "out/a.bolt" "1.00; 200" "2.00; 300" script_bytes)
    as (Hmain & Hreadelf & Hoffset & _).
  - apply sample_not_fatal. vm_compute. reflexivity.
  - reflexivity.
  - discriminate.
  - vm_compute. reflexivity.
  - vm_compute. reflexivity.
  - split; [reflexivity | vm_compute; discriminate].
  - reflexivity.
  - vm_compute. discriminate.
  - rewrite Hmain at 1. split; [reflexivity|]. split; [apply Hreadelf | apply Hoffset].
Defined.

Lemma timing_record_appended_once_witness :
  filter is_write (events (main sample_cfg world_identical))
  = [WriteTo "timing.log" ModeA
       ("out/a.bolt; 1.00; 200; 2.00; 300" ++ NL)]
  /\ file_after "timing.log" ("old line" ++ NL) (events (main sample_cfg world_identical))
     = "old line" ++ NL ++ "out/a.bolt; 1.00; 200; 2.00; 300" ++ NL.
Proof.
  destruct (timing_record_appended_once sample_cfg world_identical
              "out/a.bolt" "1.00 200" "2.00 300")
    as (Hwrites & Hfile & _).
  - apply sample_not_fatal. vm_compute. reflexivity.
  - reflexivity.
  - discriminate.
  - vm_compute. reflexivity.
  - vm_compute. reflexivity.
  - split; [exact Hwrites | exact (Hfile ("old line" ++ NL))].
Defined.

(** C5, as the design states it, fails: for the timing lines ["1.00 200"] and
    ["2.00 300"] the record written is not
    ["out/a.bolt; 1.00 200; 2.00 300"]. *)
Lemma timing_record_fields_not_space_separated :
  ~ spec_timing_claim sample_cfg world_identical.
Proof.
  intros H.
  specialize (H "out/a.bolt" "1.00" "200" "2.00" "300").
  assert (Hf : ~ fatal_mismatch sample_cfg world_identical).
  { apply sample_not_fatal. vm_compute. reflexivity. }
  specialize (H Hf eq_refl eq_refl eq_refl).
  vm_compute in H. discriminate.
Qed.

(** C4. For two ELF outputs that differ and whose headers differ in a line,
    [main] does not report ["headers mismatch"]: [compare_headers] calls
    [compare_logs] with [skip_end = 0], which compares nothing, so the run
    goes on to print the byte offset and ends with ["binaries mismatch"].
    No run of [main] ends with ["headers mismatch"]. *)
Theorem differing_headers_reported_as_binaries_mismatch :
  compare_lines_spec hdr_a hdr_b 0
  = Some ("  Entry point address: 0x400000", "  Entry point address: 0x401000")
  /\ compare_logs hdr_a hdr_b 0 = None
  /\ ending (main sample_cfg world_headers)
     = Stop (SystemExit (ExitMsg "binaries mismatch"))
  /\ In (PrintInt 26) (events (main sample_cfg world_headers))
  /\ forall (cfg : config) (w : world),
       ending (main cfg w) <> Stop (SystemExit (ExitMsg "headers mismatch")).
Proof.
  split; [reflexivity|]. split; [reflexivity|]. split; [reflexivity|].
  split; [vm_compute; tauto | exact never_headers_mismatch].
Qed.

(** C6. For two tools that do nothing and succeed, started without [-o],
    [main] does not end with status 0 and writes no timing line: the lookup
    [args.index('-o')] raises [ValueError] right after the logs were
    compared. Without [-o] no run of [main] exits with a status code. *)
Theorem noop_without_output_flag_raises :
  main sample_cfg world_noop
  = (launch_events sample_cfg world_noop, Stop (Uncaught ValueError))
  /\ exit_status_of (main sample_cfg world_noop) = 1
  /\ filter is_write (events (main sample_cfg world_noop)) = []
  /\ forall (cfg : config) (w : world) (n : Z),
       ns_o (parsed_args w) = None ->
       ending (main cfg w) <> Stop (SystemExit (ExitCode n)).
Proof.
  split; [reflexivity|]. split; [reflexivity|]. split; [reflexivity|].
  intros cfg w n. apply no_output_flag_no_success.
Qed.

(** C10. [parse_cmp_offset] returns the number of the leftmost occurrence
    of [byte N,] in its argument when there is one, and raises (here: is
    [None]) exactly when there is none, as for the empty output of [cmp] on
    a file that is a strict prefix of the other. [main] ends with
    ["binaries mismatch"] only when the output of [cmp] has such an
    occurrence; when the run comes to the byte offset and there is none, it
    ends with the uncaught [AttributeError]. *)
Theorem parse_cmp_offset_needs_byte_pattern :
  (forall s : string,
      match parse_cmp_offset s with
      | Some n => exists ds, first_byte_pattern s ds /\ n = Py.int ds
      | None => ~ has_byte_pattern s
      end)
  /\ (forall s : string,
         has_byte_pattern s <-> exists n, parse_cmp_offset s = Some n)
  /\ parse_cmp_offset (stdout cmp_differ) = Some 26
  /\ parse_cmp_offset (stdout cmp_eof) = None
  /\ (forall (cfg : config) (w : world),
         ending (main cfg w) = Stop (SystemExit (ExitMsg "binaries mismatch")) ->
         exists o, ns_o (parsed_args w) = Some o
                   /\ has_byte_pattern (stdout (cmp_tool w o (cmp_binary_of w o))))
  /\ (forall (cfg : config) (w : world) (o t1 t2 : string) (f : list Byte.byte),
         ~ fatal_mismatch cfg w ->
         ns_o (parsed_args w) = Some o -> o <> "" ->
         get_real_from_stderr (stderr (main_bolt cfg w)) = Some t1 ->
         get_real_from_stderr (stderr (cmp_bolt cfg w)) = Some t2 ->
         binaries_differ cfg w o ->
         file_bytes w o = Some f -> is_elf f ->
         returncode (readelf_tool w o) = 0 ->
         returncode (readelf_tool w (cmp_binary_of w o)) = 0 ->
         ~ has_byte_pattern (stdout (cmp_tool w o (cmp_binary_of w o))) ->
         ending (main cfg w) = Stop (Uncaught AttributeError))
  /\ ending (main sample_cfg world_prefix) = Stop (Uncaught AttributeError).
Proof.
  assert (Hiff : forall s : string,
             has_byte_pattern s <-> exists n, parse_cmp_offset s = Some n).
  { intros s. pose proof (parse_cmp_offset_cases s) as H.
    destruct (parse_cmp_offset s) as [n|].
    - split; [intros _; now exists n | intros _].
      destruct H as (ds & (pre & post & Hp & _) & _). now exists pre, ds, post.
    - split; [intros Hp; contradiction | intros (n & Hn); discriminate]. }
  split; [exact parse_cmp_offset_cases|]. split; [exact Hiff|].
  split; [reflexivity|]. split; [reflexivity|]. split; [|split; [|reflexivity]].
  - intros cfg w Hend.
    destruct (binaries_mismatch_has_offset cfg w Hend) as (o & n & Ho & Hn & _).
    exists o. split; [exact Ho|]. apply Hiff. now exists n.
  - intros cfg w o t1 t2 f Hf Ho Hne H1 H2 Hd Hb Helf El Er Hnone.
    rewrite (elf_offset_path cfg w o t1 t2 f Hf Ho Hne H1 H2 Hd Hb Helf El Er).
    cbn [ending snd].
    destruct (parse_cmp_offset (stdout (cmp_tool w o (cmp_binary_of w o))))
      as [n|] eqn:E; [|reflexivity].
    exfalso. apply Hnone, Hiff. now exists n.
Qed.

(** ** Sanity checks of the embedded built-ins *)

Example splitlines_ex :
  Py.splitlines ("a" ++ NL ++ String Py.CR NL ++ "b c" ++ NL) = ["a"; ""; "b c"].
Proof. reflexivity. Qed.

Example splitlines_empty : Py.splitlines "" = [] /\ Py.splitlines NL = [""].
Proof. split; reflexivity. Qed.

Example slice_to_ex :
  Py.slice_to [1; 2; 3] (- 1) = [1; 2]
  /\ Py.slice_to [1; 2; 3] (- 0) = []
  /\ Py.slice_to [1; 2; 3] (- 5) = [].
Proof. repeat split; reflexivity. Qed.

Example search_ex :
  Re.search "^Args: " "Args: -o x" = Some []
  /\ Re.search "^Args: " " Args: -o x" = None
  /\ Re.search "BOLT-INFO:.*data.*output data" "BOLT-INFO: 3 data in output data" = Some []
  /\ Re.search "byte (\d+)," "a b differ: byte 12, line 1" = Some ["12"].
Proof. repeat split; reflexivity. Qed.

Example replace_cmp_path_ex :
  replace_cmp_path "/tmp/tmpf9un" [("o", "abc/test.tmp")]
  = ["-o"; "/tmp/tmpf9un/test.tmp"].
Proof. reflexivity. Qed.

(** * More on the log comparison *)

Section SkipEnd.

Lemma firstn_min_length {A : Type} (n : nat) (l : list A) :
  firstn (Nat.min n (List.length l)) l = firstn n l.
Proof.
  destruct (Nat.le_ge_cases n (List.length l)) as [H|H].
  - now rewrite Nat.min_l.
  - rewrite Nat.min_r by exact H. now rewrite firstn_all, firstn_all2.
Qed.

(** The three regimes of the slice [[:-skip_end]]. *)
Lemma slice_to_neg {A : Type} (l : list A) (skip_end : Z) :
  Py.slice_to l (- skip_end)
  = if 0 <? skip_end
    then firstn (List.length l - Z.to_nat skip_end) l
    else firstn (Z.to_nat (- skip_end)) l.
Proof.
  unfold Py.slice_to.
  destruct (Z.ltb_spec 0 skip_end) as [Hpos|Hle].
  - destruct (Z.ltb_spec (- skip_end) 0) as [_|H]; [|lia].
    f_equal. lia.
  - destruct (Z.ltb_spec (- skip_end) 0) as [H|_]; [lia|].
    rewrite <- (firstn_min_length (Z.to_nat (- skip_end)) l).
    f_equal. lia.
Qed.

(** X1. [skip_end] at work: a positive [skip_end] leaves out that many pairs at
    the end of the zipped lines (all of them when there are no more), zero
    leaves out every pair, and a negative one keeps the first [- skip_end]
    pairs only. *)
Theorem compared_pairs_by_skip_end (main cmp : string) (skip_end : Z) :
  compared_pairs main cmp skip_end
  = if 0 <? skip_end
    then firstn (List.length (combine (Py.splitlines main) (Py.splitlines cmp))
                 - Z.to_nat skip_end)
                (combine (Py.splitlines main) (Py.splitlines cmp))
    else firstn (Z.to_nat (- skip_end))
                (combine (Py.splitlines main) (Py.splitlines cmp)).
Proof. unfold compared_pairs. apply slice_to_neg. Qed.

Lemma combine_snoc (common : list string) (x y : string) :
  combine (common ++ [x]) (common ++ [y]) = (combine common common ++ [(x, y)])%list.
Proof. induction common as [|a l IH]; simpl; [reflexivity | now rewrite IH]. Qed.

Lemma combine_diag_passes (l : list string) : Forall passes (combine l l).
Proof. induction l; simpl; constructor; auto. now left. Qed.

(** X2. Two logs whose lines agree up to their last line compare equal with
    [skip_end = 1], as [main] compares the standard errors: the last line,
    which holds the timing, is not looked at. *)
Theorem compare_logs_ignores_last_line
    (main cmp : string) (common : list string) (x y : string) :
  Py.splitlines main = (common ++ [x])%list ->
  Py.splitlines cmp = (common ++ [y])%list ->
  compare_logs main cmp 1 = None.
Proof.
  intros Hm Hc. unfold compare_logs.
  unfold compared_pairs. rewrite slice_to_neg, Hm, Hc, combine_snoc.
  change (0 <? 1) with true. cbv iota.
  rewrite length_app. change (Z.to_nat 1) with 1%nat. cbn [List.length].
  replace (List.length (combine common common) + 1 - 1)%nat
    with (List.length (combine common common) + 0)%nat by lia.
  rewrite firstn_app_2. cbn [firstn]. rewrite app_nil_r.
  apply compare_pairs_none, combine_diag_passes.
Qed.

Lemma compare_logs_ignores_last_line_witness :
  compare_logs ("BOLT-INFO: done" ++ NL ++ "1.00 200" ++ NL)
               ("BOLT-INFO: done" ++ NL ++ "2.00 300" ++ NL) 1 = None.
Proof.
  apply (compare_logs_ignores_last_line _ _ ["BOLT-INFO: done"] "1.00 200" "2.00 300");
    reflexivity.
Defined.

Lemma compare_pairs_first_failure (pre post : list (string * string))
    (p : string * string) :
  Forall passes pre -> ~ passes p ->
  compare_pairs (pre ++ p :: post) = Some p.
Proof.
  intros Hpre Hp. induction Hpre as [|[l r] pre Hq _ IH]; cbn [app].
  - destruct p as [l r]. now apply compare_pairs_cons.
  - rewrite (proj1 (compare_pairs_cons l r _) Hq). exact IH.
Qed.

(** X3. With [skip_end = 1] a pair of lines that does not pass is reported when
    the lines before it agree and both logs go on after it: only the last
    zipped pair is out of reach. *)
Theorem compare_logs_reports_before_last_line
    (main cmp : string) (common rest1 rest2 : list string) (l r : string) :
  Py.splitlines main = (common ++ l :: rest1)%list ->
  Py.splitlines cmp = (common ++ r :: rest2)%list ->
  rest1 <> [] -> rest2 <> [] ->
  ~ passes (l, r) ->
  compare_logs main cmp 1 = Some (l, r).
Proof.
  intros Hm Hc H1 H2 Hp. unfold compare_logs.
  unfold compared_pairs. rewrite slice_to_neg, Hm, Hc.
  change (0 <? 1) with true. cbv iota.
  assert (E : combine (common ++ l :: rest1) (common ++ r :: rest2)
              = (combine common common ++ (l, r) :: combine rest1 rest2)%list).
  { clear. induction common as [|a c IH]; simpl; [reflexivity | now rewrite IH]. }
  rewrite E, length_app. cbn [List.length].
  destruct rest1 as [|a1 rest1]; [contradiction|].
  destruct rest2 as [|a2 rest2]; [contradiction|].
  change (Z.to_nat 1) with 1%nat. cbn [combine List.length].
  replace (List.length (combine common common)
           + S (S (List.length (combine rest1 rest2))) - 1)%nat
    with (List.length (combine common common)
          + S (List.length (combine rest1 rest2)))%nat by lia.
  rewrite firstn_app_2. cbn [firstn].
  apply compare_pairs_first_failure; [apply combine_diag_passes | exact Hp].
Qed.

Lemma compare_logs_reports_before_last_line_witness :
  compare_logs ("BOLT-INFO: 10 functions" ++ NL ++ "1.00 200" ++ NL)
               ("BOLT-INFO: 11 functions" ++ NL ++ "2.00 300" ++ NL) 1
  = Some ("BOLT-INFO: 10 functions", "BOLT-INFO: 11 functions").
Proof.
  apply (compare_logs_reports_before_last_line _ _ []
           ["1.00 200"] ["2.00 300"]
           "BOLT-INFO: 10 functions" "BOLT-INFO: 11 functions").
  - reflexivity.
  - reflexivity.
  - discriminate.
  - discriminate.
  - intros [H | H]; [discriminate|].
    apply skip_loop_spec in H. vm_compute in H. discriminate.
Defined.

Lemma skip_loop_sym (skips : list string) (lhs rhs : string) :
  skip_loop skips lhs rhs = skip_loop skips rhs lhs.
Proof.
  induction skips as [|skip skips IH]; [reflexivity|].
  cbn [skip_loop]. now rewrite andb_comm, IH.
Qed.

Lemma compare_pairs_swap (pairs : list (string * string)) :
  compare_pairs (map swap_pair pairs) = option_map swap_pair (compare_pairs pairs).
Proof.
  induction pairs as [|[l r] pairs IH]; [reflexivity|].
  cbn [map swap_pair fst snd compare_pairs].
  rewrite String.eqb_sym, (skip_loop_sym SKIP_MATCH r l), IH.
  destruct (negb (l =? r)%string); [|reflexivity].
  now destruct (skip_loop SKIP_MATCH l r).
Qed.

Lemma combine_swap (a b : list string) :
  combine b a = map swap_pair (combine a b).
Proof.
  revert b. induction a as [|x a IH]; intros [|y b]; simpl; try reflexivity.
  now rewrite IH.
Qed.

Lemma slice_to_map {A B : Type} (f : A -> B) (l : list A) (stop : Z) :
  Py.slice_to (map f l) stop = map f (Py.slice_to l stop).
Proof. unfold Py.slice_to. now rewrite length_map, firstn_map. Qed.

(** X4. The comparison does not favour a side: with the two logs exchanged,
    [compare_logs] reports the same pair of lines, exchanged, or no mismatch
    where it reported none. *)
Theorem compare_logs_exchanged (main cmp : string) (skip_end : Z) :
  compare_logs cmp main skip_end
  = option_map swap_pair (compare_logs main cmp skip_end).
Proof.
  unfold compare_logs, compared_pairs.
  now rewrite (combine_swap (Py.splitlines main)), slice_to_map, compare_pairs_swap.
Qed.

End SkipEnd.

(** * The translation of the arguments *)

Section ArgumentTranslator.

(** X6. [preprocess_args] keeps exactly the options that were given a non-empty
    value, in the order of the namespace. *)
Theorem preprocess_args_keeps_given (args : list (string * option string)) :
  (forall key value,
      In (key, value) (preprocess_args args)
      <-> In (key, Some value) args /\ value <> "")
  /\ (forall more,
         preprocess_args (args ++ more)
         = (preprocess_args args ++ preprocess_args more)%list).
Proof.
  split.
  - intros key value. induction args as [|[k [v|]] args IH]; cbn [preprocess_args In].
    + split; [contradiction | intros [[] _]].
    + destruct (String.eqb_spec v "") as [->|Hv]; cbn [In]; rewrite IH.
      * split; [intros [H1 H2]; auto | intros [[H|H] H2]; [|auto]].
        injection H as _ <-. contradiction.
      * split.
        -- intros [H | [H1 H2]]; [|auto].
           injection H as -> ->. auto.
        -- intros [[H|H] H2]; [left | right; auto].
           now injection H as -> ->.
    + rewrite IH. split; [intros [H1 H2]; auto | intros [[H|H] H2]; [discriminate | auto]].
  - intros more. induction args as [|[k [v|]] args IH]; cbn [preprocess_args app];
      [reflexivity | | exact IH].
    destruct (String.eqb v ""); [exact IH | cbn [app]; now rewrite IH].
Qed.










End ArgumentTranslator.

(** * The launch mode *)

Section LaunchMode.

Variable cfg : config.
Variable w : world.

(** X10. Whether the comparison run is started before or after the base run has
    ended, and whether the commands are echoed, changes the events of the
    launch only: for the same two children, what [main] does after both were
    awaited and how it ends is the same. *)
Theorem launch_mode_irrelevant (seq verbose : bool) :
  exists (t : list event) (r : result unit),
    main cfg w = ((launch_events cfg w ++ t)%list, r)
    /\ main (with_launch seq verbose cfg) w
       = ((launch_events (with_launch seq verbose cfg) w ++ t)%list, r).
Proof.
  unfold main, launch_events, base_cmd, cmp_cmd, base_args, cmp_args.
  rewrite !run_bolt_eq.
  change (bolt_cmd (with_launch seq verbose cfg) w) with (bolt_cmd cfg w).
  change (report_real_time (with_launch seq verbose cfg)) with (report_real_time cfg).
  cbn [with_launch BASE_BOLT CMP_BOLT KEEP_TMP NO_MINIMIZE RUN_SEQUENTIALLY
       COMPARE_OUTPUT SKIP_BINARY_CMP TIMING_FILE].
  destruct seq, (RUN_SEQUENTIALLY cfg);
    cbn [bind ret emit wait h_cmd h_proc fst snd app];
    match goal with
    | |- context [bind (if ?c then ?a else ?b) ?k] =>
        set (K := bind (if c then a else b) k)
    end;
    clearbody K; destruct K as [t r]; exists t, r;
    (split; f_equal;
     cbn [app]; repeat (rewrite <- !app_assoc; cbn [app]); reflexivity).
Qed.

End LaunchMode.

(** * The meaning of the skip patterns *)

Section SkipPatterns.

Import Re.

Lemma star_bos (k : bool -> caps -> string -> option (list string)) (a : atom) :
  (forall b st s, k b st s = k false st s) ->
  forall s b st, star k a b st s = star k a false st s.
Proof.
  intros Hk. induction s as [|c s IH]; intros b st; cbn [star].
  - apply Hk.
  - now rewrite (Hk b).
Qed.

(** Without [^] a match does not depend on where the search stands. *)
Lemma no_bol_bos (r : regex) :
  no_bol r = true ->
  forall b st s, match_items r b st s = match_items r false st s.
Proof.
  induction r as [|i r IH]; intros Hr b st s; [reflexivity|].
  cbn [no_bol forallb] in Hr. apply andb_true_iff in Hr. destruct Hr as [Hi Hr].
  specialize (IH Hr).
  destruct i; cbn [match_items]; try reflexivity; try discriminate.
  - now apply star_bos.
  - apply IH.
  - apply IH.
Qed.

Lemma no_bol_app (r1 r2 : regex) :
  no_bol (r1 ++ r2)%list = no_bol r1 && no_bol r2.
Proof. unfold no_bol. apply forallb_app. Qed.

Lemma no_bol_lits (l : string) : no_bol (lits l) = true.
Proof. induction l; [reflexivity | exact IHl]. Qed.

(** A literal text matches itself. *)
Lemma match_lits (l : string) (r : regex) :
  no_bol r = true ->
  forall bos s,
    match_items (lits l ++ r)%list bos no_caps s <> None
    <-> exists s', s = l ++ s' /\ match_items r false no_caps s' <> None.
Proof.
  intros Hr. induction l as [|c l IH]; intros bos s; cbn [lits app append].
  - rewrite (no_bol_bos r Hr). split; [intros H; now exists s | now intros (s' & -> & H)].
  - cbn [match_items atom_matches]. destruct s as [|d s].
    + split; [congruence | intros (s' & E & _); discriminate].
    + destruct (Ascii.eqb_spec d c) as [->|Hne].
      * change (push c no_caps) with no_caps. rewrite IH. split.
        -- intros (s' & -> & H). now exists s'.
        -- intros (s' & E & H). injection E as ->. now exists s'.
      * split; [congruence | intros (s' & E & _)].
        injection E as -> _. contradiction.
Qed.

(** [.*] matches any text without a line feed. *)
Lemma match_dot_star (r : regex) :
  no_bol r = true ->
  forall s bos,
    star (match_items r) Dot bos no_caps s <> None
    <-> exists mid rest,
          s = mid ++ rest /\ no_lf mid = true
          /\ match_items r false no_caps rest <> None.
Proof.
  intros Hr. induction s as [|c s IH]; intros bos; cbn [star atom_matches].
  - rewrite (no_bol_bos r Hr). split.
    + intros H. now exists "", "".
    + intros ([|d mid] & rest & E & _ & H); [|discriminate].
      cbn in E. now subst rest.
  - change (push c no_caps) with no_caps.
    destruct (Ascii.eqb c Py.LF) eqn:Hc; cbn [negb].
    + rewrite (no_bol_bos r Hr). split.
      * intros H. now exists "", (String c s).
      * intros ([|d mid] & rest & E & Hmid & H).
        -- cbn in E. now subst rest.
        -- cbn in E. injection E as <- _. cbn [no_lf] in Hmid. rewrite Hc in Hmid. discriminate.
    + split.
      * intros H.
        destruct (star (match_items r) Dot false no_caps s) as [g|] eqn:E.
        -- assert (Hs : star (match_items r) Dot false no_caps s <> None) by congruence.
           apply IH in Hs. destruct Hs as (mid & rest & -> & Hmid & Hrest).
           exists (String c mid), rest. split; [reflexivity|].
           split; [cbn [no_lf]; now rewrite Hc | exact Hrest].
        -- rewrite (no_bol_bos r Hr) in H. now exists "", (String c s).
      * intros ([|d mid] & rest & E & Hmid & H).
        -- cbn in E. subst rest.
           destruct (star (match_items r) Dot false no_caps s); [congruence|].
           now rewrite (no_bol_bos r Hr).
        -- cbn in E. injection E as <- ->. cbn [no_lf] in Hmid.
           apply andb_true_iff in Hmid. destruct Hmid as [_ Hmid].
           assert (Hs : star (match_items r) Dot false no_caps (mid ++ rest) <> None).
           { apply IH. now exists mid, rest. }
           destruct (star (match_items r) Dot false no_caps (mid ++ rest));
             [congruence | contradiction].
Qed.

(** The search tries every position. *)
Lemma search_from_anywhere (r : regex) :
  no_bol r = true ->
  forall s bos,
    search_from r bos s <> None
    <-> exists pre t, s = pre ++ t /\ match_items r false no_caps t <> None.
Proof.
  intros Hr. induction s as [|c s IH]; intros bos; cbn [search_from];
    rewrite (no_bol_bos r Hr).
  - destruct (match_items r false no_caps "") as [g|] eqn:E.
    + split; [intros _ | congruence]. exists "", "". split; [reflexivity|]. congruence.
    + split; [congruence|]. intros ([|d pre] & t & Heq & H); [|discriminate].
      cbn in Heq. subst t. congruence.
  - destruct (match_items r false no_caps (String c s)) as [g|] eqn:E.
    + split; [intros _ | congruence].
      exists "", (String c s). split; [reflexivity|]. congruence.
    + rewrite IH. split.
      * intros (pre & t & -> & H). now exists (String c pre), t.
      * intros ([|d pre] & t & Heq & H).
        -- cbn in Heq. subst t. congruence.
        -- cbn in Heq. injection Heq as _ ->. now exists pre, t.
Qed.

(** After [^] the search stays at the beginning. *)
Lemma search_from_bol_later (r : regex) (s : string) :
  search_from (Bol :: r) false s = None.
Proof. induction s as [|c s IH]; cbn [search_from match_items]; [reflexivity | exact IH]. Qed.

Lemma search_from_bol (r : regex) (s : string) :
  search_from (Bol :: r) true s <> None <-> match_items r true no_caps s <> None.
Proof.
  destruct s as [|c s]; cbn [search_from].
  - change (match_items (Bol :: r) true no_caps "")
      with (match_items r true no_caps "").
    destruct (match_items r true no_caps ""); split; congruence.
  - change (match_items (Bol :: r) true no_caps (String c s))
      with (match_items r true no_caps (String c s)).
    destruct (match_items r true no_caps (String c s)); [split; congruence|].
    now rewrite search_from_bol_later.
Qed.

Lemma match_lits_only (l s : string) (bos : bool) :
  match_items (lits l) bos no_caps s <> None <-> begins_with l s.
Proof.
  rewrite <- (app_nil_r (lits l)), (match_lits l [] eq_refl). unfold begins_with.
  split; [intros (s' & -> & _); now exists s' | intros (post & ->)].
  exists post. split; [reflexivity | discriminate].
Qed.

Lemma search_literal (l s : string) :
  search_from (lits l) true s <> None <-> contains l s.
Proof.
  rewrite (search_from_anywhere (lits l) (no_bol_lits l)). unfold contains.
  split.
  - intros (pre & t & -> & H). apply match_lits_only in H.
    destruct H as (post & ->). now exists pre, post.
  - intros (pre & post & ->). exists pre, (l ++ post).
    split; [reflexivity|]. apply match_lits_only. now exists post.
Qed.

Lemma search_data_info (s : string) :
  search "BOLT-INFO:.*data.*output data" s <> None <-> is_data_info s.
Proof.
  unfold search.
  change (re_compile "BOLT-INFO:.*data.*output data")
    with (lits "BOLT-INFO:"
          ++ Star Dot :: (lits "data" ++ Star Dot :: lits "output data"))%list.
  rewrite search_from_anywhere by reflexivity. unfold is_data_info. split.
  - intros (pre & t & -> & H).
    apply (match_lits "BOLT-INFO:") in H; [|reflexivity].
    destruct H as (t1 & -> & H).
    change (match_items (Star Dot :: (lits "data" ++ Star Dot :: lits "output data"))%list
              false no_caps t1)
      with (star (match_items (lits "data" ++ Star Dot :: lits "output data")%list)
              Dot false no_caps t1) in H.
    apply match_dot_star in H; [|reflexivity].
    destruct H as (m1 & t2 & -> & Hm1 & H).
    apply (match_lits "data") in H; [|reflexivity].
    destruct H as (t3 & -> & H).
    change (match_items (Star Dot :: lits "output data") false no_caps t3)
      with (star (match_items (lits "output data")) Dot false no_caps t3) in H.
    apply match_dot_star in H; [|reflexivity].
    destruct H as (m2 & t4 & -> & Hm2 & H).
    apply match_lits_only in H. destruct H as (post & ->).
    exists pre, m1, m2, post. now repeat split.
  - intros (pre & m1 & m2 & post & -> & Hm1 & Hm2).
    exists pre, ("BOLT-INFO:" ++ m1 ++ "data" ++ m2 ++ "output data" ++ post).
    split; [reflexivity|].
    apply (match_lits "BOLT-INFO:"); [reflexivity|].
    exists (m1 ++ "data" ++ m2 ++ "output data" ++ post). split; [reflexivity|].
    change (match_items (Star Dot :: (lits "data" ++ Star Dot :: lits "output data"))%list
              false no_caps (m1 ++ "data" ++ m2 ++ "output data" ++ post))
      with (star (match_items (lits "data" ++ Star Dot :: lits "output data")%list)
              Dot false no_caps (m1 ++ "data" ++ m2 ++ "output data" ++ post)).
    apply match_dot_star; [reflexivity|].
    exists m1, ("data" ++ m2 ++ "output data" ++ post).
    split; [reflexivity|]. split; [exact Hm1|].
    apply (match_lits "data"); [reflexivity|].
    exists (m2 ++ "output data" ++ post). split; [reflexivity|].
    change (match_items (Star Dot :: lits "output data") false no_caps
              (m2 ++ "output data" ++ post))
      with (star (match_items (lits "output data")) Dot false no_caps
              (m2 ++ "output data" ++ post)).
    apply match_dot_star; [reflexivity|].
    exists m2, ("output data" ++ post).
    split; [reflexivity|]. split; [exact Hm2|].
    apply match_lits_only. now exists post.
Qed.

(** What each entry of [SKIP_MATCH] matches: the version banner and the
    warning anywhere in the line, [Args: ] and [BOLT-DEBUG:] at the beginning
    of the line only, and [BOLT-INFO:] followed later by [data] and later by
    [output data]. *)
Lemma skip_patterns_meaning (line : string) :
  (Re.search "BOLT-INFO: BOLT version" line <> None
   <-> contains "BOLT-INFO: BOLT version" line)
  /\ (Re.search "^Args: " line <> None <-> begins_with "Args: " line)
  /\ (Re.search "^BOLT-DEBUG:" line <> None <-> begins_with "BOLT-DEBUG:" line)
  /\ (Re.search "BOLT-INFO:.*data.*output data" line <> None <-> is_data_info line)
  /\ (Re.search "WARNING: reading perf data directly" line <> None
      <-> contains "WARNING: reading perf data directly" line).
Proof.
  split; [|split; [|split; [|split]]].
  - apply (search_literal "BOLT-INFO: BOLT version").
  - unfold search. change (re_compile "^Args: ") with (Bol :: lits "Args: ").
    rewrite search_from_bol. apply match_lits_only.
  - unfold search. change (re_compile "^BOLT-DEBUG:") with (Bol :: lits "BOLT-DEBUG:").
    rewrite search_from_bol. apply match_lits_only.
  - apply search_data_info.
  - apply (search_literal "WARNING: reading perf data directly").
Qed.

(** X5. Two different lines are let pass exactly when both are version banners,
    both echo the arguments, both are debug lines, both are data-ingestion
    lines or both carry the perf warning. *)
Theorem tolerated_meaning (lhs rhs : string) :
  tolerated lhs rhs
  <-> (contains "BOLT-INFO: BOLT version" lhs
       /\ contains "BOLT-INFO: BOLT version" rhs)
      \/ (begins_with "Args: " lhs /\ begins_with "Args: " rhs)
      \/ (begins_with "BOLT-DEBUG:" lhs /\ begins_with "BOLT-DEBUG:" rhs)
      \/ (is_data_info lhs /\ is_data_info rhs)
      \/ (contains "WARNING: reading perf data directly" lhs
          /\ contains "WARNING: reading perf data directly" rhs).
Proof.
  destruct (skip_patterns_meaning lhs) as (L1 & L2 & L3 & L4 & L5).
  destruct (skip_patterns_meaning rhs) as (R1 & R2 & R3 & R4 & R5).
  unfold tolerated, tolerated_by, SKIP_MATCH. split.
  - intros (skip & Hin & Hl & Hr). cbn [In] in Hin.
    destruct Hin as [<-|[<-|[<-|[<-|[<-|[]]]]]].
    + left. split; [now apply L1 | now apply R1].
    + right; left. split; [now apply L2 | now apply R2].
    + right; right; left. split; [now apply L3 | now apply R3].
    + right; right; right; left. split; [now apply L4 | now apply R4].
    + right; right; right; right. split; [now apply L5 | now apply R5].
  - intros [[Hl Hr]|[[Hl Hr]|[[Hl Hr]|[[Hl Hr]|[Hl Hr]]]]].
    + exists "BOLT-INFO: BOLT version".
      split; [left; reflexivity|]. split; [now apply L1 | now apply R1].
    + exists "^Args: ".
      split; [right; left; reflexivity|]. split; [now apply L2 | now apply R2].
    + exists "^BOLT-DEBUG:".
      split; [right; right; left; reflexivity|].
      split; [now apply L3 | now apply R3].
    + exists "BOLT-INFO:.*data.*output data".
      split; [right; right; right; left; reflexivity|].
      split; [now apply L4 | now apply R4].
    + exists "WARNING: reading perf data directly".
      split; [right; right; right; right; left; reflexivity|].
      split; [now apply L5 | now apply R5].
Qed.

End SkipPatterns.

(** * More sample invocations *)

Lemma exit_status_zero_means_match_witness :
  ending (main sample_cfg world_identical) = success_ending sample_cfg world_identical
  /\ returncode (main_bolt sample_cfg world_identical)
     = returncode (cmp_bolt sample_cfg world_identical).
Proof.
  destruct (exit_status_zero_means_match sample_cfg world_identical)
    as (Hend & Hrc & _).
  - vm_compute. reflexivity.
  - split; [exact Hend | exact Hrc].
Defined.

Lemma skip_binary_cmp_runs_no_tool_witness :
  ~ In (Run ["cmp"; "out/a.bolt"; "/tmp/tmpx/a.bolt"])
       (events (main sample_cfg_skip world_headers))
  /\ ~ In (OpenRb "out/a.bolt") (events (main sample_cfg_skip world_headers)).
Proof.
  destruct (skip_binary_cmp_runs_no_tool sample_cfg_skip world_headers)
    as (Hrun & Hopen).
  - reflexivity.
  - split; [apply Hrun | apply Hopen].
Defined.

Lemma empty_stderr_raises_index_error_witness :
  main sample_cfg world_silent
  = (launch_events sample_cfg world_silent, Stop (Uncaught IndexError)).
Proof.
  apply (empty_stderr_raises_index_error sample_cfg world_silent "out/a.bolt").
  - apply sample_not_fatal. vm_compute. reflexivity.
  - reflexivity.
  - discriminate.
  - left. reflexivity.
Defined.

Lemma fatal_mismatch_artifacts_witness :
  file_after "/tmp/tmpx/main_bolt.stdout" "stale"
    (events (main sample_cfg world_exit_codes)) = stdout base_ok
  /\ file_after "/tmp/tmpx/summary.txt" "stale"
       (events (main sample_cfg world_exit_codes))
     = fmt_cmp (Some ("BOLT-INFO: BOLT version 1",
                      "BOLT-ERROR: could not open input")).
Proof.
  destruct (fatal_mismatch_artifacts sample_cfg world_exit_codes "stale")
    as (Hout & _ & _ & _ & Hsummary & _).
  - left. vm_compute. discriminate.
  - split; [exact Hout | exact Hsummary].
Defined.
